(** * Qubit-flip examples for Helmi: a shallow embedding

    The development follows the three scripts of the repository:
    [qiskit/qb_flip.py], [qiskit/qb_flip_simple.py] and
    [qiskit/first_quantum_job.py].

    - Python integers are [Z]; Python lists are [list]; a [dict] with string
      keys is a [gmap string _]; a Python [float] is a binary64 number of
      [SpecFloat] ([prec = 53], [emax = 1024]).
    - A Python call either returns or raises: [result].
    - The scripts talk to the outside (environment variables, the execution
      backend, standard output): [play] threads the state of the outside
      world and the trace of what the script did. *)

From Stdlib Require Import ZArith Lia Bool.
From Stdlib Require Import Floats.SpecFloat.
From stdpp Require Import base option list gmap strings fin_maps pretty.

Local Open Scope string_scope.
Local Open Scope list_scope.
Local Open Scope Z_scope.

(** ** Exceptions and results *)

(** The exceptions the scripts can meet.  [SDKError] stands for whatever the
    backend raises when a job is refused or fails. *)
Inductive exception : Type :=
  | ValueError (msg : string)
  | ZeroDivisionError
  | OverflowError
  | IndexError
  | CircuitError
  | SDKError (name : string).

Inductive result (A : Type) : Type :=
  | Return (a : A)
  | Raise (e : exception).
Arguments Return {A} a.
Arguments Raise {A} e.

Global Instance result_ret : MRet result := fun A a => Return a.
Global Instance result_bind : MBind result := fun A B k r =>
  match r with
  | Return a => k a
  | Raise e => Raise e
  end.

Definition returns {A} (r : result A) : Prop := exists a, r = Return a.

(** A [for] loop that threads an accumulator and stops at the first
    exception. *)
Fixpoint for_each {A B} (body : B -> A -> result B) (acc : B) (l : list A)
  : result B :=
  match l with
  | [] => Return acc
  | x :: l' => acc' ← body acc x; for_each body acc' l'
  end.

(** ** Python numbers *)

Module Py.

(** binary64 *)
Definition prec : Z := 53.
Definition emax : Z := 1024.
Definition float : Type := spec_float.

(** An integer as a floating-point operand, exactly: mantissa [|n|],
    exponent 0.  Nothing is rounded here; [SFdiv] rounds the quotient
    once. *)
Definition operand (n : Z) : float :=
  match n with
  | Z0 => S754_zero false
  | Zpos p => S754_finite false p 0
  | Zneg p => S754_finite true p 0
  end.

(** The binary64 nearest to the exact quotient of two integers (ties to
    even); an infinity when it lies beyond the largest float. *)
Definition quotient (a b : Z) : float :=
  SFdiv prec emax (operand a) (operand b).

(** [a / b] on two [int]: [ZeroDivisionError] when [b] is zero,
    [OverflowError] when the quotient is too large for a float, the
    rounded quotient otherwise. *)
Definition truediv (a b : Z) : result float :=
  if b =? 0 then Raise ZeroDivisionError
  else match quotient a b with
       | S754_infinity _ => Raise OverflowError
       | q => Return q
       end.

(** A float that is a number and not below zero: no NaN, no infinity,
    no minus sign. *)
Definition unsigned_finite (x : float) : Prop :=
  match x with
  | S754_zero s | S754_finite s _ _ => s = false
  | _ => False
  end.

(** [seq[i]] for an integer index on a sequence of length [n]: the
    position read, negative indices counting from the end. *)
Definition index (n : nat) (i : Z) : option nat :=
  if (0 <=? i) && (i <? Z.of_nat n) then Some (Z.to_nat i)
  else if (- Z.of_nat n <=? i) && (i <? 0) then Some (Z.to_nat (Z.of_nat n + i))
  else None.

(** [l[i]] *)
Definition getitem {A} (l : list A) (i : Z) : result A :=
  match index (length l) i with
  | Some n => match l !! n with
              | Some x => Return x
              | None => Raise IndexError
              end
  | None => Raise IndexError
  end.

(** The literals the specification compares scores with. *)
Definition float_0_0 : float := S754_zero false.
Definition float_1_0 : float := S754_finite false 4503599627370496 (-52).

End Py.

(** ** The part of Qiskit the scripts use *)

Module Qiskit.

(** A register is its size and its name.  The sizes the scripts ask for
    are lengths, so never negative. *)
Record Register : Type := { reg_size : nat; reg_name : string }.
Definition QuantumRegister (size : nat) (name : string) : Register :=
  {| reg_size := size; reg_name := name |}.
Definition ClassicalRegister (size : nat) (name : string) : Register :=
  {| reg_size := size; reg_name := name |}.

(** Qubits and classical bits are named by their position in the circuit. *)
Inductive Instruction : Type :=
  | HGate (q : nat)
  | XGate (q : nat)
  | CXGate (control target : nat)
  | Barrier (qs : list nat)
  | Measure (q c : nat).

Record QuantumCircuit : Type := {
  name : option string;
  qregs : list Register;
  cregs : list Register;
  data : list Instruction
}.

Definition new_circuit (qregs cregs : list Register) (name : option string)
  : QuantumCircuit :=
  {| name := name; qregs := qregs; cregs := cregs; data := [] |}.

Definition bits (regs : list Register) : nat :=
  foldr (fun r n => (reg_size r + n)%nat) 0%nat regs.
Definition num_qubits (qc : QuantumCircuit) : nat := bits (qregs qc).
Definition num_clbits (qc : QuantumCircuit) : nat := bits (cregs qc).

Definition append (qc : QuantumCircuit) (i : Instruction) : QuantumCircuit :=
  {| name := name qc; qregs := qregs qc; cregs := cregs qc;
     data := data qc ++ [i] |}.

(** [reg[i]]: the bit at position [i] of a register (here always the
    circuit's only quantum register, so the position in the circuit). *)
Definition reg_getitem (reg : Register) (i : Z) : result nat :=
  match Py.index (reg_size reg) i with
  | Some n => Return n
  | None => Raise IndexError
  end.

(** A qubit given by an integer is [circuit.qubits[i]]; an index out of
    range is a [CircuitError]. *)
Definition qubit_of_int (qc : QuantumCircuit) (i : Z) : result nat :=
  match Py.index (num_qubits qc) i with
  | Some n => Return n
  | None => Raise CircuitError
  end.

(** [qc.x(i)] with an integer argument *)
Definition x (qc : QuantumCircuit) (qubit : Z) : result QuantumCircuit :=
  q ← qubit_of_int qc qubit; Return (append qc (XGate q)).

(** [qc.h(q)], [qc.cx(c, t)] with qubits taken from the register *)
Definition h (qc : QuantumCircuit) (q : nat) : QuantumCircuit :=
  append qc (HGate q).
Definition cx (qc : QuantumCircuit) (c t : nat) : QuantumCircuit :=
  append qc (CXGate c t).

(** [qc.measure_all()]: a new classical register [meas] of the size of
    the circuit is added after the existing ones, then a barrier, then
    qubit [i] is measured into bit [i] of the new register. *)
Definition measure_all (qc : QuantumCircuit) : QuantumCircuit :=
  let n := num_qubits qc in
  let first := num_clbits qc in
  {| name := name qc;
     qregs := qregs qc;
     cregs := cregs qc ++ [ClassicalRegister n "meas"];
     data := data qc ++ Barrier (seq 0 n)
               :: map (fun i => Measure i (first + i)) (seq 0 n) |}.

(** [range(n)] *)
Definition range (n : nat) : list Z := Z.of_nat <$> seq 0 n.

(** The positions an X gate is applied to, in program order. *)
Definition x_targets (qc : QuantumCircuit) : list nat :=
  omap (fun i => match i with XGate q => Some q | _ => None end) (data qc).

(** Every position a gate or a measurement touches. *)
Definition touched (i : Instruction) : list nat :=
  match i with
  | HGate q | XGate q | Measure q _ => [q]
  | CXGate c t => [c; t]
  | Barrier qs => qs
  end.

(** A circuit with X gates added at the given positions. *)
Definition with_gates (qc : QuantumCircuit) (targets : list nat)
  : QuantumCircuit :=
  {| name := name qc; qregs := qregs qc; cregs := cregs qc;
     data := data qc ++ (XGate <$> targets) |}.

End Qiskit.

(** ** The outside world: environment, backend, standard output *)

Module SDK.
Import Qiskit.

(** The execution backend is outside the repository: what a job answers
    is given by an [execute] function over a state of the world, which the
    scripts take as a parameter.

    What [job.result()] gives: the counts, and for an IQM job the
    mapping request (logical name, physical name) and the calibration
    set. *)
Record JobResult : Type := {
  get_counts : gmap string Z;
  qubit_mapping : list (string * string);
  calibration_set_id : string
}.

(** [job.result()] blocks until the job is over and raises when it
    failed; asking again gives the same answer. *)
Record Job : Type := {
  job_id : string;
  job_result : result JobResult
}.

Inductive Provider : Type :=
  | IQMProvider (url : string)
  | Aer.

Inductive Backend : Type :=
  | IQMBackend (url : string)
  | AerSimulator.

(** [IQMProvider(url).get_backend()] talks to the server behind the URL
    before any job is sent: it raises when the server cannot be reached or
    answers with an error.  Like the answers to the jobs, what the server
    says is outside the repository and comes with the world. *)
Class Server (World : Type) : Type :=
  connect : string -> World -> result unit * World.

(** ["IQM" in str(backend)] *)
Definition is_IQM (backend : Backend) : bool :=
  match backend with
  | IQMBackend _ => true
  | AerSimulator => false
  end.

(** What a script prints.  [SuccessProbability p] is the line
    [Success probability: ...%] for the score [p]. *)
Inductive line : Type :=
  | CircuitHeader (n : nat)
  | Drawing (circuit : QuantumCircuit)
  | Text (s : string)
  | QubitMapping (m : list (string * string))
  | Counts (counts : gmap string Z)
  | PhysicalName (s : string)
  | SuccessProbability (p : Py.float)
  | JobId (s : string)
  | CalibrationSetId (s : string).

(** What a script does to the outside, in the order it does it. *)
Inductive event : Type :=
  | Getenv (name : string)
  | Connect (url : string) (reply : result unit)
  | Execute (circuit : QuantumCircuit) (backend : Backend) (shots : Z)
            (initial_layout : option (gmap nat Z)) (reply : result Job)
  | Output (l : line).

Section Play.
Context {World : Type}.

(** A script run from a state of the world: what it returns or
    raises, the world afterwards, and what it did. *)
Definition play (A : Type) : Type :=
  World -> result A * World * list event.

Definition lift {A} (r : result A) : play A := fun w => (r, w, []).
Definition raise {A} (e : exception) : play A := lift (Raise e).

Definition play_bind {A B} (k : A -> play B) (m : play A) : play B :=
  fun w =>
    match m w with
    | (Return a, w', t) =>
        let '(r, w'', t') := k a w' in (r, w'', t ++ t')
    | (Raise e, w', t) => (Raise e, w', t)
    end.

Definition print (l : line) : play unit :=
  fun w => (Return tt, w, [Output l]).

(** [if b: body] *)
Definition when (b : bool) (body : play unit) : play unit :=
  if b then body else lift (Return tt).

(** [os.getenv(name)] *)
Definition getenv (environ : gmap string string) (name : string)
  : play (option string) :=
  fun w => (Return (environ !! name), w, [Getenv name]).

(** [execute(circuit, backend, shots=..., initial_layout=...)] *)
Definition call
    (execute : QuantumCircuit -> Backend -> Z -> option (gmap nat Z) ->
               World -> result Job * World)
    (circuit : QuantumCircuit) (backend : Backend) (shots : Z)
    (initial_layout : option (gmap nat Z)) : play Job :=
  fun w =>
    let '(reply, w') := execute circuit backend shots initial_layout w in
    (reply, w', [Execute circuit backend shots initial_layout reply]).

(** [provider.get_backend(name)].  The scripts ask [Aer] for
    ['aer_simulator'] only; the IQM provider has one backend, the machine
    behind its URL, whatever the name, and hands it out once the server
    has answered. *)
Definition get_backend `{!Server World} (provider : Provider)
    (name : option string) : play Backend :=
  match provider with
  | IQMProvider url =>
      fun w =>
        let '(reply, w') := connect url w in
        (_ ← reply; Return (IQMBackend url), w', [Connect url reply])
  | Aer => lift (Return AerSimulator)
  end.

End Play.
Arguments play : clear implicits.

Global Instance play_ret {World} : MRet (play World) :=
  fun A a => lift (Return a).
Global Instance play_mbind {World} : MBind (play World) :=
  fun A B k m => play_bind k m.

(** [not v] for the value of [os.getenv]: [None] and the empty string
    are false. *)
Definition falsy (v : option string) : bool :=
  match v with
  | None => true
  | Some s => String.eqb s ""
  end.

(** Observations on a trace. *)
Definition executions (t : list event)
  : list (QuantumCircuit * Backend * Z * option (gmap nat Z)) :=
  omap (fun ev => match ev with
                  | Execute c b n m _ => Some (c, b, n, m)
                  | _ => None
                  end) t.

Definition reports (t : list event) : list Py.float :=
  omap (fun ev => match ev with
                  | Output (SuccessProbability p) => Some p
                  | _ => None
                  end) t.

Definition env_reads (t : list event) : list string :=
  omap (fun ev => match ev with Getenv n => Some n | _ => None end) t.

Definition connections (t : list event) : list string :=
  omap (fun ev => match ev with Connect url _ => Some url | _ => None end) t.

End SDK.

(** ** [qb_flip.py] *)

Module QbFlip.
Import Qiskit SDK.

Definition calculate_success_probability
    (counts : gmap string Z) (shots : Z) (desired_state : string)
  : result Py.float :=
  let success_counts := default 0 (counts !! desired_state) in
  Py.truediv success_counts shots.

(** The dictionary comprehension of [flip_circuit] (its last line but
    one): [{qreg[i]: qubits[i] for i in range(len(qubits))}]. *)
Definition flip_circuit_mapping (qreg : Register) (qubits : list Z)
  : result (gmap nat Z) :=
  for_each (fun mapping i =>
              k ← reg_getitem qreg i;
              v ← Py.getitem qubits i;
              Return (<[k := v]> mapping))
           ∅ (range (length qubits)).

Definition flip_circuit (qubits : list Z)
  : result (QuantumCircuit * gmap nat Z) :=
  let qreg := QuantumRegister (length qubits) "qb" in
  let qc := new_circuit [qreg] [] None in
  qc ← for_each (fun qc qubit => x qc qubit) qc qubits;
  let qc := measure_all qc in
  mapping ← flip_circuit_mapping qreg qubits;
  Return (qc, mapping).

Definition single_flip_circuit (qubit : Z)
  : result (QuantumCircuit * gmap nat Z) :=
  let qreg := QuantumRegister 1 "qb" in
  let qc := new_circuit [qreg] [] None in
  qc ← x qc 0;
  let qc := measure_all qc in
  k ← reg_getitem qreg 0;
  let mapping : gmap nat Z := {[ k := qubit ]} in
  Return (qc, mapping).

(** The circuit of every one-qubit job. *)
Definition one_qubit_flip : QuantumCircuit :=
  {| name := None;
     qregs := [QuantumRegister 1 "qb"];
     cregs := [ClassicalRegister 1 "meas"];
     data := [XGate 0; Barrier [0%nat]; Measure 0 0] |}.

Definition one_qubit_pair (qb : Z) : QuantumCircuit * gmap nat Z :=
  (one_qubit_flip, {[ 0%nat := qb ]}).

Section FlipQubits.
Context {World : Type} `{!Server World}.
Variable execute :
  QuantumCircuit -> Backend -> Z -> option (gmap nat Z) ->
  World -> result Job * World.
Variable environ : gmap string string.

(** Lines 91 to 100 of [flip_qubits]: the backend. *)
Definition flip_qubits_backend (backend : string) : play World Backend :=
  provider ←
    (if String.eqb backend "helmi" then
       HELMI_CORTEX_URL ← getenv environ "HELMI_CORTEX_URL";
       if falsy HELMI_CORTEX_URL then
         raise (ValueError "Environment variable HELMI_CORTEX_URL is not set")
       else mret (IQMProvider (default "" HELMI_CORTEX_URL))
     else mret Aer);
  get_backend provider (Some "aer_simulator").

(** Lines 102 to 109: the circuits, all built before any job runs. *)
Definition flip_qubits_circuits (qubits : option (list Z))
  : result (list (QuantumCircuit * gmap nat Z)) :=
  match qubits with
  | None =>
      pair ← flip_circuit [0; 1; 2; 3; 4];
      Return ([] ++ [pair])
  | Some qubits =>
      for_each (fun circuit_mapping_pairs qb =>
                  pair ← single_flip_circuit qb;
                  Return (circuit_mapping_pairs ++ [pair]))
               [] qubits
  end.

(** Lines 113 to 135: one turn of the scoring loop. *)
Definition flip_qubits_job (qubits : option (list Z)) (backend : Backend)
    (shots : Z) (verbose : bool) (i : nat)
    (circuit : QuantumCircuit) (mapping : gmap nat Z) : play World unit :=
  when verbose (print (CircuitHeader (i + 1));; print (Drawing circuit));;
  job ← call execute circuit backend shots (Some mapping);
  res ← lift (job_result job);
  let counts := get_counts res in
  when (verbose && is_IQM backend)
    (print (Text "Mapping");;
     res' ← lift (job_result job);
     print (QubitMapping (qubit_mapping res')));;
  success_probability ←
    lift (match qubits with
          | None => calculate_success_probability counts shots "11111"
          | Some _ => calculate_success_probability counts shots "1"
          end);
  when verbose (print (Counts counts));;
  when (is_IQM backend)
    (res' ← lift (job_result job);
     first ← lift (Py.getitem (qubit_mapping res') 0);
     print (PhysicalName first.2));;
  print (SuccessProbability success_probability).

(** Lines 112 to 135: the scoring loop, [i] counting the turns. *)
Fixpoint flip_qubits_jobs (qubits : option (list Z)) (backend : Backend)
    (shots : Z) (verbose : bool) (i : nat)
    (circuit_mapping_pairs : list (QuantumCircuit * gmap nat Z))
  : play World unit :=
  match circuit_mapping_pairs with
  | [] => mret tt
  | (circuit, mapping) :: rest =>
      flip_qubits_job qubits backend shots verbose i circuit mapping;;
      flip_qubits_jobs qubits backend shots verbose (S i) rest
  end.

Definition flip_qubits (qubits : option (list Z)) (backend : string)
    (shots : Z) (verbose : bool) : play World unit :=
  backend ← flip_qubits_backend backend;
  circuit_mapping_pairs ← lift (flip_qubits_circuits qubits);
  flip_qubits_jobs qubits backend shots verbose 0 circuit_mapping_pairs.

End FlipQubits.

(** The desired bitstring of a run: all ones over the five default
    qubits, or the single ["1"] of a one-qubit circuit. *)
Definition desired_state (qubits : option (list Z)) : string :=
  match qubits with
  | None => "11111"
  | Some _ => "1"
  end.

(** The score a reply of the backend is worth against [desired]: the
    job's failure if it failed. *)
Definition score_of_reply (desired : string) (shots : Z)
    (reply : result Job) : result Py.float :=
  job ← reply;
  res ← job_result job;
  calculate_success_probability (get_counts res) shots desired.

(** The scores of the jobs of a trace, in the order they ran. *)
Definition job_scores (desired : string) (t : list event)
  : list (result Py.float) :=
  omap (fun ev => match ev with
                  | Execute _ _ shots _ reply =>
                      Some (score_of_reply desired shots reply)
                  | _ => None
                  end) t.

(** The job a circuit and its mapping are submitted as. *)
Definition job_of (backend : Backend) (shots : Z)
    (pair : QuantumCircuit * gmap nat Z)
  : QuantumCircuit * Backend * Z * option (gmap nat Z) :=
  (pair.1, backend, shots, Some pair.2).

(** A job fails when [execute] raises or when [job.result()] does. *)
Definition job_raises {World}
    (execute : QuantumCircuit -> Backend -> Z -> option (gmap nat Z) ->
               World -> result Job * World)
    (circuit : QuantumCircuit) (backend : Backend) (shots : Z)
    (mapping : gmap nat Z) (w : World) (e : exception) : Prop :=
  (job ← (execute circuit backend shots (Some mapping) w).1;
   res ← job_result job; Return tt) = Raise e.

End QbFlip.

(** ** Scripts that also assert *)

(** [main] of [qb_flip_simple.py] can fail in one more way than the other
    scripts, by its [assert], and prints two lines of its own. *)
Module Run.
Import Qiskit SDK.

Inductive failure : Type :=
  | Exception (e : exception)
  | AssertionError.

Inductive outcome (A : Type) : Type :=
  | Done (a : A)
  | Failed (f : failure).
Arguments Done {A} a.
Arguments Failed {A} f.

(** [QubitReport n counts p] is the line
    [QB<n> -> <counts>, Success probability: ...%] for the score [p];
    [AllReport counts p] is [Counts: <counts>, Success probability: ...%]. *)
Inductive step : Type :=
  | Sdk (ev : event)
  | QubitReport (n : Z) (counts : gmap string Z) (p : Py.float)
  | AllReport (counts : gmap string Z) (p : Py.float).

Section Run.
Context {World : Type}.

Definition run (A : Type) : Type := World -> outcome A * World * list step.

Definition run_bind {A B} (k : A -> run B) (m : run A) : run B :=
  fun w =>
    match m w with
    | (Done a, w', t) =>
        let '(r, w'', t') := k a w' in (r, w'', t ++ t')
    | (Failed f, w', t) => (Failed f, w', t)
    end.

Definition of_result {A} (r : result A) : run A :=
  fun w =>
    match r with
    | Return a => (Done a, w, [])
    | Raise e => (Failed (Exception e), w, [])
    end.

(** A script of the other kind, run as it is. *)
Definition of_play {A} (m : play World A) : run A :=
  fun w =>
    let '(r, w', t) := m w in
    (match r with
     | Return a => Done a
     | Raise e => Failed (Exception e)
     end, w', Sdk <$> t).

(** [assert b] *)
Definition assert (b : bool) : run unit :=
  fun w => (if b then Done tt else Failed AssertionError, w, []).

Definition report (s : step) : run unit := fun w => (Done tt, w, [s]).

End Run.
Arguments run : clear implicits.

Global Instance run_ret {World} : MRet (run World) :=
  fun A a => of_result (Return a).
Global Instance run_mbind {World} : MBind (run World) :=
  fun A B k m => run_bind k m.

(** [str(n)] for an [int] *)
Definition str (n : Z) : string := pretty n.

(** The newline character of the string literals. *)
Definition nl : string := String (Ascii.ascii_of_nat 10) "".

(** Observations on a trace. *)
Definition events (t : list step) : list event :=
  omap (fun s => match s with Sdk ev => Some ev | _ => None end) t.

Definition report_lines (t : list step) : list step :=
  omap (fun s => match s with Sdk _ => None | line => Some line end) t.

End Run.

(** ** [qb_flip_simple.py] *)

Module QbFlipSimple.
Import Qiskit.

Definition single_flip_circuit (qubit : Z)
  : result (QuantumCircuit * gmap nat Z) :=
  let qreg := QuantumRegister 1 "qb" in
  let creg := ClassicalRegister 1 "c" in
  let qc := new_circuit [qreg] [creg] None in
  qc ← x qc 0;
  let qc := measure_all qc in
  k ← reg_getitem qreg 0;
  let mapping : gmap nat Z := {[ k := qubit ]} in
  Return (qc, mapping).

(** The dictionary comprehension of [flip_circuit] (its last line but
    one): [{qreg[i]: qubits[i] for i in range(len(qubits))}]. *)
Definition flip_circuit_mapping (qreg : Register) (qubits : list Z)
  : result (gmap nat Z) :=
  for_each (fun mapping i =>
              k ← reg_getitem qreg i;
              v ← Py.getitem qubits i;
              Return (<[k := v]> mapping))
           ∅ (range (length qubits)).

Definition flip_circuit (qubits : list Z)
  : result (QuantumCircuit * gmap nat Z) :=
  let qreg := QuantumRegister (length qubits) "qb" in
  let creg := ClassicalRegister (length qubits) "c" in
  let qc := new_circuit [qreg] [creg] None in
  qc ← for_each (fun qc qubit => x qc qubit) qc qubits;
  let qc := measure_all qc in
  mapping ← flip_circuit_mapping qreg qubits;
  Return (qc, mapping).

Definition calculate_success_probability
    (counts : gmap string Z) (shots : Z) (desired_state : string)
  : result Py.float :=
  let success_counts := default 0 (counts !! desired_state) in
  Py.truediv success_counts shots.

Import SDK Run.

Section Main.
Context {World : Type} `{!Server World}.
Variable execute :
  QuantumCircuit -> Backend -> Z -> option (gmap nat Z) ->
  World -> result Job * World.
Variable environ : gmap string string.

(** Lines 78 to 85 of [main]: one turn of the loop over [range(5)].
    [shots] is set to 1000 again in every turn. *)
Definition main_qubit (backend : Backend) (qb : Z) : run World unit :=
  '(circuit, mapping) ← of_result (single_flip_circuit qb);
  let shots := 1000 in
  job ← of_play (call execute circuit backend shots (Some mapping));
  res ← of_result (job_result job);
  first ← of_result (Py.getitem (qubit_mapping res) 0);
  assert (String.eqb ("QB" +:+ str (qb + 1)) first.2);;
  res ← of_result (job_result job);
  let counts := get_counts res in
  success_probability ←
    of_result (calculate_success_probability counts shots "1");
  report (QubitReport (qb + 1) counts success_probability).

Fixpoint main_qubits (backend : Backend) (qbs : list Z) : run World unit :=
  match qbs with
  | [] => mret tt
  | qb :: rest => main_qubit backend qb;; main_qubits backend rest
  end.

(** Lines 88 to 92 of [main]: all qubits at once. *)
Definition main_all (backend : Backend) (shots : Z) : run World unit :=
  '(circuit, mapping) ← of_result (flip_circuit [0; 1; 2; 3; 4]);
  job ← of_play (call execute circuit backend shots (Some mapping));
  res ← of_result (job_result job);
  let counts := get_counts res in
  success_probability ←
    of_result (calculate_success_probability counts shots "11111");
  report (AllReport counts success_probability).

Definition main : run World unit :=
  HELMI_CORTEX_URL ← of_play (getenv environ "HELMI_CORTEX_URL");
  (if falsy HELMI_CORTEX_URL then
     of_result
       (Raise (ValueError "Environment variable HELMI_CORTEX_URL is not set"))
   else mret tt);;
  let provider := IQMProvider (default "" HELMI_CORTEX_URL) in
  backend ← of_play (get_backend provider None);
  let shots := 1000 in
  of_play (print (Text (nl +:+ "Flip one qubit at a time" +:+ nl)));;
  main_qubits backend (range 5);;
  of_play (print (Text (nl +:+ "Flip all qubits at once" +:+ nl)));;
  main_all backend shots.

End Main.

End QbFlipSimple.

(** ** [first_quantum_job.py] *)

Module FirstQuantumJob.
Import Qiskit SDK.

Section Script.
Context {World : Type} `{!Server World}.
Variable execute :
  QuantumCircuit -> Backend -> Z -> option (gmap nat Z) ->
  World -> result Job * World.
Variable environ : gmap string string.

Definition script : play World unit :=
  let shots := 1000 in
  let qreg := QuantumRegister 2 "QB" in
  let circuit := new_circuit [qreg] [] (Some "Bell pair circuit") in
  q0 ← lift (reg_getitem qreg 0);
  let circuit := h circuit q0 in
  q0 ← lift (reg_getitem qreg 0);
  q1 ← lift (reg_getitem qreg 1);
  let circuit := cx circuit q0 q1 in
  let circuit := measure_all circuit in
  HELMI_CORTEX_URL ← getenv environ "HELMI_CORTEX_URL";
  (if falsy HELMI_CORTEX_URL then
     raise (ValueError "Environment variable HELMI_CORTEX_URL is not set")
   else mret tt);;
  let provider := IQMProvider (default "" HELMI_CORTEX_URL) in
  backend ← get_backend provider None;
  job ← call execute circuit backend shots None;
  result ← lift (job_result job);
  exp_result ← lift (job_result job);
  print (JobId (job_id job));;
  print (CalibrationSetId (calibration_set_id exp_result));;
  let counts := get_counts result in
  print (Counts counts).

End Script.

End FirstQuantumJob.

(** ** Backends to run the scripts against *)

Module Bench.
Import Qiskit SDK.

(** The servers of the bench machines answer at every address but one,
    where nothing listens. *)
Definition unreachable : string := "http://127.0.0.1:9".

Global Instance stateless_server : Server unit :=
  fun url w => (Return tt, w).

Global Instance counting_server : Server nat :=
  fun url w =>
    (if String.eqb url unreachable
     then Raise (SDKError "ConnectionError") else Return tt, w).

(** A backend without state where every shot of a job gives ["1"],
    except that the job laid out on physical qubit 1 is refused. *)
Definition qubit_1_refused (circuit : QuantumCircuit) (backend : Backend)
    (shots : Z) (initial_layout : option (gmap nat Z)) (w : unit)
  : result Job * unit :=
  (if default 0 (initial_layout ≫= (.!! 0%nat)) =? 1
   then Raise (SDKError "SubmissionError")
   else Return {| job_id := "job";
                  job_result :=
                    Return {| get_counts := {[ "1" := shots ]};
                              qubit_mapping := [];
                              calibration_set_id := "" |} |},
   w).

(** A backend that counts the jobs it has run and finds every qubit
    flipped in every shot. *)
Definition all_flipped (circuit : QuantumCircuit) (backend : Backend)
    (shots : Z) (initial_layout : option (gmap nat Z)) (w : nat)
  : result Job * nat :=
  (Return {| job_id := "job";
             job_result :=
               Return {| get_counts :=
                           {[ String.concat ""
                                (replicate (num_qubits circuit) "1")
                              := shots ]};
                         qubit_mapping := [("qb_0", "QB1")];
                         calibration_set_id := "" |} |},
   S w).

(** A machine that places the first qubit of a job on the physical qubit
    its layout asks for, names it [QB1] to [QB5] as Helmi does, and finds
    every qubit flipped in every shot. *)
Definition helmi (circuit : QuantumCircuit) (backend : Backend)
    (shots : Z) (initial_layout : option (gmap nat Z)) (w : nat)
  : result Job * nat :=
  (Return {| job_id := "job";
             job_result :=
               Return {| get_counts :=
                           {[ String.concat ""
                                (replicate (num_qubits circuit) "1")
                              := shots ]};
                         qubit_mapping :=
                           [("qb_0",
                             "QB" +:+ Run.str
                               (default 0 (initial_layout ≫= (.!! 0%nat))
                                + 1))];
                         calibration_set_id := "calibration" |} |},
   S w).

(** A machine that places every job on [QB1], whatever the layout. *)
Definition always_QB1 (circuit : QuantumCircuit) (backend : Backend)
    (shots : Z) (initial_layout : option (gmap nat Z)) (w : nat)
  : result Job * nat :=
  (Return {| job_id := "job";
             job_result :=
               Return {| get_counts := {[ "1" := shots ]};
                         qubit_mapping := [("qb_0", "QB1")];
                         calibration_set_id := "calibration" |} |},
   S w).

End Bench.

(** ** Counts as the data model has them *)

(** The counts of a job are a histogram of its shots: no negative entry,
    and the entries add up to the number of shots. *)
Definition total (counts : gmap string Z) : Z :=
  map_fold (fun _ n acc => n + acc) 0 counts.

Definition histogram (counts : gmap string Z) (shots : Z) : Prop :=
  map_Forall (fun _ n => 0 <= n) counts /\ total counts = shots.

(** ** What a run printed *)

Definition printed (t : list SDK.event) : list SDK.line :=
  omap (fun ev => match ev with SDK.Output l => Some l | _ => None end) t.

(** The circuit of [first_quantum_job.py]. *)
Definition bell_pair : Qiskit.QuantumCircuit :=
  {| Qiskit.name := Some "Bell pair circuit";
     Qiskit.qregs := [Qiskit.QuantumRegister 2 "QB"];
     Qiskit.cregs := [Qiskit.ClassicalRegister 2 "meas"];
     Qiskit.data := [Qiskit.HGate 0; Qiskit.CXGate 0 1;
                     Qiskit.Barrier [0; 1]%nat;
                     Qiskit.Measure 0 0; Qiskit.Measure 1 1] |}.

(** The circuit of every one-qubit job of [qb_flip_simple.py]. *)
Definition simple_one_qubit : Qiskit.QuantumCircuit :=
  {| Qiskit.name := None;
     Qiskit.qregs := [Qiskit.QuantumRegister 1 "qb"];
     Qiskit.cregs := [Qiskit.ClassicalRegister 1 "c";
                      Qiskit.ClassicalRegister 1 "meas"];
     Qiskit.data := [Qiskit.XGate 0; Qiskit.Barrier [0%nat];
                     Qiskit.Measure 0 1] |}.

(** The job of [main] for the physical qubit [qb]. *)
Definition simple_job (backend : SDK.Backend) (qb : Z)
  : Qiskit.QuantumCircuit * SDK.Backend * Z * option (gmap nat Z) :=
  (simple_one_qubit, backend, 1000, Some {[ 0%nat := qb ]}).

(** What the [assert] of [main] asks of the result of the job for [qb]:
    the first qubit of the mapping request sits on [QB<qb+1>]. *)
Definition placed_on (qb : Z) (res : SDK.JobResult) : Prop :=
  exists first rest,
    SDK.qubit_mapping res = first :: rest /\
    first.2 = "QB" +:+ Run.str (qb + 1).

(** A trace is vouched for when every line [QB<n> -> ...] in it comes with
    the job that earned it: a one-qubit job laid out on the physical qubit
    [n - 1], whose result places the qubit on [QB<n>], gives the counts of
    the line, and scores the printed probability against ["1"] over 1000
    shots. *)
Definition vouched (t : list Run.step) : Prop :=
  forall n counts p,
    Run.QubitReport n counts p ∈ t ->
    exists backend job res,
      Run.Sdk (SDK.Execute simple_one_qubit backend 1000
                 (Some {[ 0%nat := n - 1 ]}) (Return job)) ∈ t /\
      SDK.job_result job = Return res /\
      placed_on (n - 1) res /\
      SDK.get_counts res = counts /\
      QbFlipSimple.calculate_success_probability counts 1000 "1" = Return p.

(** * Properties *)

(** ** Binary64 division of integers *)

Section Binary64.
Import Py.

Lemma digits2_pos_size p : digits2_pos p = Pos.size p.
Proof. induction p; simpl; congruence. Qed.

Lemma Zdigits2_nonneg m : 0 <= Zdigits2 m.
Proof. destruct m; simpl; lia. Qed.

(** A nonnegative number below [2^k] has at most [k] binary digits. *)
Lemma Zdigits2_le m k : 0 <= k -> 0 <= m < 2 ^ k -> Zdigits2 m <= k.
Proof.
  intros Hk [Hm Hlt]. destruct m as [|p|p]; simpl; try lia.
  rewrite digits2_pos_size.
  pose proof (Pos.size_le p) as Hle.
  apply Pos2Z.pos_le_pos in Hle. rewrite Pos2Z.inj_pow in Hle.
  change (Z.pos p~0) with (2 * Z.pos p) in Hle.
  destruct (Z.le_gt_cases (Z.pos (Pos.size p)) k) as [|Hgt]; [done|].
  exfalso.
  assert (2 ^ (k + 1) <= 2 ^ Z.pos (Pos.size p)) as H1
    by (apply Z.pow_le_mono_r; lia).
  rewrite Z.pow_add_r in H1 by lia. lia.
Qed.

(** ... and a number of [d] digits is below [2^d]. *)
Lemma Zdigits2_gt m : 0 <= m -> m < 2 ^ Zdigits2 m.
Proof.
  intros Hm. destruct m as [|p|p]; simpl; try lia.
  rewrite digits2_pos_size.
  pose proof (Pos.size_gt p) as Hgt.
  apply Pos2Z.pos_lt_pos in Hgt. by rewrite Pos2Z.inj_pow in Hgt.
Qed.

Lemma shr_m_shr_1 mrs : 0 <= shr_m mrs -> shr_m (shr_1 mrs) = shr_m mrs / 2.
Proof.
  destruct mrs as [m r s]. cbn [shr_m]. intros Hm.
  destruct m as [|[p|p|]|p]; cbn [shr_1 shr_m]; try lia; try done.
  - apply Z.div_unique with 1; lia.
  - apply Z.div_unique with 0; lia.
Qed.

Lemma shr_m_iter_pos p : forall mrs,
  0 <= shr_m mrs ->
  shr_m (SpecFloat.iter_pos shr_1 p mrs) = shr_m mrs / 2 ^ Z.pos p.
Proof.
  induction p as [p IH|p IH|]; intros mrs Hm; cbn [SpecFloat.iter_pos].
  - assert (0 <= shr_m (shr_1 mrs)) as H1
      by (rewrite shr_m_shr_1 by done; apply Z.div_pos; lia).
    assert (0 <= shr_m (SpecFloat.iter_pos shr_1 p (shr_1 mrs))) as H2
      by (rewrite IH by done; apply Z.div_pos; lia).
    rewrite (IH _ H2), (IH _ H1), shr_m_shr_1 by done.
    rewrite !Z.div_div by lia. f_equal.
    replace (Z.pos p~1) with (1 + Z.pos p + Z.pos p) by lia.
    rewrite !Z.pow_add_r by lia. lia.
  - assert (0 <= shr_m (SpecFloat.iter_pos shr_1 p mrs)) as H2
      by (rewrite IH by done; apply Z.div_pos; lia).
    rewrite (IH _ H2), (IH _ Hm).
    rewrite !Z.div_div by lia. f_equal.
    replace (Z.pos p~0) with (Z.pos p + Z.pos p) by lia.
    rewrite !Z.pow_add_r by lia. lia.
  - rewrite shr_m_shr_1 by done. by rewrite Z.pow_1_r.
Qed.

Lemma shr_m_of_loc m l : shr_m (shr_record_of_loc m l) = m.
Proof. by destruct l as [|[]]. Qed.

Lemma fexp_binary64 x : fexp prec emax x = Z.max (x - 53) (-1074).
Proof. reflexivity. Qed.

(** [shr_fexp] shifts the mantissa right until the exponent is the one
    the format asks for. *)
Lemma shr_fexp_spec m e l :
  0 <= m ->
  let e' := Z.max e (fexp prec emax (Zdigits2 m + e)) in
  (shr_fexp prec emax m e l).2 = e' /\
  shr_m (shr_fexp prec emax m e l).1 = m / 2 ^ (e' - e).
Proof.
  intros Hm e'. subst e'. unfold shr_fexp, shr.
  destruct (fexp prec emax (Zdigits2 m + e) - e) as [|p|p] eqn:Hn;
    cbn [fst snd].
  - rewrite Z.max_l by lia. rewrite Z.sub_diag, Z.div_1_r.
    split; [done | apply shr_m_of_loc].
  - rewrite Z.max_r by lia.
    rewrite shr_m_iter_pos by (by rewrite shr_m_of_loc).
    rewrite shr_m_of_loc, Hn. split; [lia | done].
  - rewrite Z.max_l by lia. rewrite Z.sub_diag, Z.div_1_r.
    split; [done | apply shr_m_of_loc].
Qed.

Lemma round_nearest_even_bounds m l :
  m <= round_nearest_even m l <= m + 1.
Proof.
  unfold round_nearest_even.
  destruct l as [|[]]; try destruct (Z.even m); lia.
Qed.

(** Rounding a nonnegative mantissa whose value is below [2^1023] gives
    a zero or a finite number of the same sign: neither an infinity nor
    a NaN. *)
Lemma binary_round_aux_finite s m e l :
  0 <= m -> e <= 971 -> Zdigits2 m + e <= 1023 ->
  match binary_round_aux prec emax s m e l with
  | S754_zero s' | S754_finite s' _ _ => s' = s
  | _ => False
  end.
Proof.
  intros Hm He Hd. unfold binary_round_aux.
  destruct (shr_fexp_spec m e l Hm) as [He1 Hm1].
  destruct (shr_fexp prec emax m e l) as [mrs1 e1]. cbn [fst snd] in *.
  rewrite <- He1 in Hm1.
  set (m2 := round_nearest_even _ _).
  pose proof (round_nearest_even_bounds (shr_m mrs1)
                (loc_of_shr_record mrs1)) as Hm2. fold m2 in Hm2.
  pose proof (Zdigits2_gt m Hm) as Hlt.
  pose proof (Zdigits2_nonneg m) as Hd0.
  rewrite fexp_binary64 in He1.
  assert (0 <= shr_m mrs1) as Hm1pos
    by (rewrite Hm1; apply Z.div_pos; lia).
  assert (0 <= m2) as Hm2pos by lia.
  assert (e1 <= 971) as He1b by lia.
  assert (Zdigits2 m2 + e1 <= 1024) as Hd2.
  { destruct (Z.le_gt_cases (e1 - e) (Zdigits2 m)) as [Hk|Hk].
    - assert (shr_m mrs1 < 2 ^ (Zdigits2 m - (e1 - e))) as Hq.
      { rewrite Hm1. apply Z.div_lt_upper_bound; [lia|].
        rewrite <- Z.pow_add_r by lia.
        by replace (e1 - e + (Zdigits2 m - (e1 - e))) with (Zdigits2 m)
          by lia. }
      assert (Zdigits2 m2 <= Zdigits2 m - (e1 - e) + 1); [|lia].
      apply Zdigits2_le; [lia|]. split; [done|].
      rewrite Z.pow_add_r, Z.pow_1_r by lia. lia.
    - assert (shr_m mrs1 = 0) as Hq.
      { rewrite Hm1. apply Z.div_small. split; [done|].
        eapply Z.lt_le_trans; [exact Hlt|].
        apply Z.pow_le_mono_r; lia. }
      assert (Zdigits2 m2 <= 1); [|lia].
      apply Zdigits2_le; [lia|]. rewrite Z.pow_1_r. lia. }
  destruct (shr_fexp_spec m2 e1 loc_Exact Hm2pos) as [He2 Hm3].
  destruct (shr_fexp prec emax m2 e1 loc_Exact) as [mrs2 e2].
  cbn [fst snd] in *. rewrite <- He2 in Hm3. rewrite fexp_binary64 in He2.
  assert (0 <= shr_m mrs2) as Hm3pos
    by (rewrite Hm3; apply Z.div_pos; lia).
  destruct (shr_m mrs2) as [|p|p]; [done| |lia].
  replace (e2 <=? emax - prec) with true; [done|].
  symmetry. apply Z.leb_le. unfold emax, prec. lia.
Qed.

(** The quotient of two positive integers, the first not above the
    second. *)
Lemma SFdiv_core_binary_fraction (a b : positive) :
  (a <= b)%positive ->
  let '(q, e, _) := SFdiv_core_binary prec emax (Z.pos a) 0 (Z.pos b) 0 in
  0 <= q /\ e <= 0 /\ Zdigits2 q + e <= 1.
Proof.
  intros Hab. unfold SFdiv_core_binary.
  rewrite !Z.add_0_r, Z.sub_0_r.
  set (e := Z.min _ 0). assert (e <= 0) as He by lia.
  set (m' := match 0 - e with Z.pos _ => _ | _ => _ end).
  assert (m' = Z.pos a * 2 ^ (0 - e)) as Hm'.
  { subst m'. destruct (0 - e) as [|p|p] eqn:Hs; [lia| |lia].
    apply Z.shiftl_mul_pow2. lia. }
  pose proof (Z_div_mod m' (Z.pos b) eq_refl) as Hdiv.
  destruct (Z.div_eucl m' (Z.pos b)) as [q r]. destruct Hdiv as [Hq Hr].
  assert (0 < 2 ^ (0 - e)) as Hpow by (apply Z.pow_pos_nonneg; lia).
  assert (0 <= q) as Hq0 by nia.
  assert (q <= 2 ^ (0 - e)) as Hq1 by nia.
  split; [done|]. split; [done|].
  assert (Zdigits2 q <= 0 - e + 1); [|lia].
  apply Zdigits2_le; [lia|]. rewrite Z.pow_add_r, Z.pow_1_r by lia. lia.
Qed.

(** Dividing a count by a larger positive total neither overflows nor
    fails: [truediv] returns the rounded quotient, a zero or a finite
    positive float. *)
Lemma truediv_fraction (a b : Z) :
  0 <= a <= b -> 0 < b ->
  truediv a b = Return (quotient a b) /\ unsigned_finite (quotient a b).
Proof.
  intros [Ha Hab] Hb. unfold truediv, unsigned_finite, quotient.
  replace (b =? 0) with false by (symmetry; apply Z.eqb_neq; lia).
  destruct b as [|b|b]; try lia. destruct a as [|a|a]; try lia.
  - by cbn.
  - cbn [operand SFdiv xorb].
    pose proof (SFdiv_core_binary_fraction a b Hab) as Hcore.
    destruct (SFdiv_core_binary prec emax (Z.pos a) 0 (Z.pos b) 0)
      as [[q e] l].
    destruct Hcore as (Hq & He & Hd).
    pose proof (binary_round_aux_finite false q e l Hq) as Hround.
    destruct (binary_round_aux prec emax false q e l);
      (split; [done || (exfalso; apply Hround; lia) | apply Hround; lia]).
Qed.

End Binary64.

(** ** ScoreEvaluator *)

Lemma calculate_success_probability_simple counts shots desired_state :
  QbFlipSimple.calculate_success_probability counts shots desired_state =
  QbFlip.calculate_success_probability counts shots desired_state.
Proof. reflexivity. Qed.

(** C5: with [shots = 0] the score evaluator fails: the division raises
    [ZeroDivisionError], the error the specification files under
    [InvalidInputError]; this holds for every counts dictionary and every
    desired bitstring, in both scripts that define the function. *)
Theorem C5_zero_shots_raises (counts : gmap string Z) (desired_state : string) :
  QbFlip.calculate_success_probability counts 0 desired_state
    = Raise ZeroDivisionError /\
  QbFlipSimple.calculate_success_probability counts 0 desired_state
    = Raise ZeroDivisionError.
Proof. split; reflexivity. Qed.

Lemma total_insert (counts : gmap string Z) k n :
  counts !! k = None -> total (<[k := n]> counts) = n + total counts.
Proof.
  intros Hk. unfold total.
  rewrite map_fold_insert_L; [done | intros; lia | done].
Qed.

Lemma total_nonneg (counts : gmap string Z) :
  map_Forall (fun _ n => 0 <= n) counts -> 0 <= total counts.
Proof.
  induction counts as [|k n counts Hk IH] using map_ind.
  - intros _. unfold total. by rewrite map_fold_empty.
  - intros Hall. rewrite total_insert by done.
    apply map_Forall_insert in Hall as [Hn Hall]; [|done].
    specialize (IH Hall). lia.
Qed.

(** In a histogram of [shots] outcomes no bitstring is counted more often
    than there are shots. *)
Lemma histogram_count counts shots k :
  histogram counts shots -> 0 <= default 0 (counts !! k) <= shots.
Proof.
  intros [Hall Htotal]. destruct (counts !! k) as [n|] eqn:Hk; simpl.
  - pose proof (Hall _ _ Hk) as Hn. simpl in Hn.
    rewrite <- (insert_delete_id counts k n Hk) in Htotal, Hall.
    rewrite total_insert in Htotal by apply lookup_delete_eq.
    apply map_Forall_insert in Hall as [_ Hall];
      [|apply lookup_delete_eq].
    pose proof (total_nonneg _ Hall). lia.
  - pose proof (total_nonneg _ Hall). lia.
Qed.




(** A histogram of [shots] outcomes always gets a score. *)
Corollary score_of_histogram counts shots desired_state :
  histogram counts shots -> 0 < shots ->
  returns (QbFlip.calculate_success_probability counts shots desired_state).
Proof.
  intros Hhist Hshots. eexists.
  apply truediv_fraction; [|done]. by apply histogram_count.
Qed.

(** C9: when the desired bitstring is not a key of the counts and
    [shots > 0], the score is exactly [0.0]: the lookup falls back to 0
    and no [KeyError] is raised; the same in both scripts. *)
Theorem C9_missing_key_scores_zero
    (counts : gmap string Z) (shots : Z) (desired_state : string) :
  counts !! desired_state = None -> 0 < shots ->
  QbFlip.calculate_success_probability counts shots desired_state
    = Return Py.float_0_0 /\
  QbFlipSimple.calculate_success_probability counts shots desired_state
    = Return Py.float_0_0.
Proof.
  intros Hmissing Hshots.
  unfold QbFlipSimple.calculate_success_probability,
    QbFlip.calculate_success_probability.
  rewrite Hmissing. cbn [default]. unfold Py.truediv.
  replace (shots =? 0) with false by (symmetry; apply Z.eqb_neq; lia).
  destruct shots; try lia. split; reflexivity.
Qed.

Lemma C9_missing_key_witness :
  QbFlip.calculate_success_probability {[ "0" := 1000 ]} 1000 "1"
    = Return Py.float_0_0.
Proof.
  refine (proj1 (C9_missing_key_scores_zero {[ "0" := 1000 ]} 1000 "1" _ _)).
  - vm_compute. reflexivity.
  - lia.
Defined.

(** ** CircuitBuilder and QubitMapper *)

Section Builders.
Import Qiskit.

Lemma index_of_nat (n j : nat) : (j < n)%nat -> Py.index n (Z.of_nat j) = Some j.
Proof.
  intros Hj. unfold Py.index.
  replace (0 <=? Z.of_nat j) with true by (symmetry; apply Z.leb_le; lia).
  replace (Z.of_nat j <? Z.of_nat n) with true
    by (symmetry; apply Z.ltb_lt; lia).
  cbn. by rewrite Nat2Z.id.
Qed.

Lemma index_Some n i j :
  Py.index n i = Some j ->
  (j < n)%nat /\ - Z.of_nat n <= i < Z.of_nat n.
Proof.
  unfold Py.index. intros H.
  destruct (0 <=? i) eqn:H0, (i <? Z.of_nat n) eqn:H1; cbn in H;
    try (injection H as <-; lia);
    destruct (- Z.of_nat n <=? i) eqn:H2, (i <? 0) eqn:H3; cbn in H;
    try discriminate; injection H as <-; lia.
Qed.

Lemma index_None n i :
  Py.index n i = None <-> ~ (- Z.of_nat n <= i < Z.of_nat n).
Proof.
  unfold Py.index.
  destruct (0 <=? i) eqn:H0, (i <? Z.of_nat n) eqn:H1; cbn;
    try (split; [discriminate | lia]);
    destruct (- Z.of_nat n <=? i) eqn:H2, (i <? 0) eqn:H3; cbn;
    split; try discriminate; try done; lia.
Qed.

Lemma x_unfold qc q :
  x qc q = match Py.index (num_qubits qc) q with
           | Some n => Return (append qc (XGate n))
           | None => Raise CircuitError
           end.
Proof. unfold x, qubit_of_int. by destruct (Py.index _ _). Qed.

(** The loop [for qubit in qubits: qc.x(qubit)] puts one X per element,
    at the position the element indexes, and raises as soon as an element
    indexes nothing. *)
Lemma x_loop qubits : forall qc,
  for_each (fun qc qubit => x qc qubit) qc qubits =
  match mapM (Py.index (num_qubits qc)) qubits with
  | Some targets => Return (with_gates qc targets)
  | None => Raise CircuitError
  end.
Proof.
  induction qubits as [|q qubits IH]; intros qc.
  - cbn. unfold with_gates. cbn. rewrite app_nil_r. by destruct qc.
  - cbn [for_each mapM]. rewrite x_unfold.
    destruct (Py.index (num_qubits qc) q) as [n|] eqn:Hq; cbn; [|done].
    rewrite IH. change (num_qubits (append qc (XGate n))) with (num_qubits qc).
    destruct (mapM (Py.index (num_qubits qc)) qubits) as [targets|];
      cbn; [|done].
    unfold with_gates, append. cbn. by rewrite <- app_assoc.
Qed.

Lemma reg_getitem_nat size name_ (j : nat) :
  (j < size)%nat ->
  reg_getitem (QuantumRegister size name_) (Z.of_nat j) = Return j.
Proof. intros Hj. unfold reg_getitem. cbn. by rewrite index_of_nat. Qed.

Lemma getitem_nat {A} (l : list A) (j : nat) v :
  l !! j = Some v -> Py.getitem l (Z.of_nat j) = Return v.
Proof.
  intros Hv. unfold Py.getitem.
  rewrite index_of_nat by (by eapply lookup_lt_Some). by rewrite Hv.
Qed.

(** The dictionary comprehension sends position [i] to [qubits[i]]. *)
Lemma mapping_loop (qubits : list Z) name_ : forall len a (m : gmap nat Z),
  (a + len <= length qubits)%nat ->
  exists m',
    for_each (fun mapping i =>
                k ← reg_getitem (QuantumRegister (length qubits) name_) i;
                v ← Py.getitem qubits i;
                Return (<[k := v]> mapping))
             m (Z.of_nat <$> seq a len) = Return m' /\
    forall i, m' !! i =
              if decide (a <= i < a + len)%nat then qubits !! i else m !! i.
Proof.
  induction len as [|len IH]; intros a m Hlen.
  - exists m. split; [done|]. intros i. case_decide; [lia | done].
  - cbn [seq fmap list_fmap for_each].
    destruct (lookup_lt_is_Some_2 qubits a ltac:(lia)) as [v Hv].
    rewrite reg_getitem_nat by lia. rewrite (getitem_nat _ _ _ Hv).
    cbn [mbind result_bind].
    destruct (IH (S a) (<[a := v]> m) ltac:(lia)) as (m' & Hrun & Hm').
    exists m'. split; [exact Hrun|].
    intros i. rewrite Hm'. repeat case_decide; try lia; try done.
    + assert (i = a) as -> by lia. by rewrite lookup_insert_eq.
    + by rewrite lookup_insert_ne by lia.
Qed.

Lemma flip_circuit_mapping_spec (qubits : list Z) name_ :
  QbFlip.flip_circuit_mapping (QuantumRegister (length qubits) name_) qubits
    = Return (map_seq 0 qubits).
Proof.
  destruct (mapping_loop qubits name_ (length qubits) 0 ∅ ltac:(lia))
    as (m' & Hrun & Hm').
  unfold QbFlip.flip_circuit_mapping, range. rewrite Hrun. f_equal.
  apply map_eq. intros i. rewrite Hm', lookup_map_seq_0.
  case_decide; [done|]. rewrite lookup_empty. symmetry.
  apply lookup_ge_None. lia.
Qed.

(** [flip_circuit] in closed form: the elements of [qubits] are used as
    register positions by [qc.x], and as the values of the mapping. *)
Lemma flip_circuit_spec (qubits : list Z) :
  QbFlip.flip_circuit qubits =
  match mapM (Py.index (length qubits)) qubits with
  | Some targets =>
      Return (measure_all
                (with_gates
                   (new_circuit [QuantumRegister (length qubits) "qb"] [] None)
                   targets),
              map_seq 0 qubits)
  | None => Raise CircuitError
  end.
Proof.
  unfold QbFlip.flip_circuit. rewrite x_loop.
  change (num_qubits (new_circuit _ _ _)) with (length qubits + 0)%nat.
  rewrite Nat.add_0_r.
  destruct (mapM (Py.index (length qubits)) qubits) as [targets|];
    cbn [mbind result_bind]; [|done].
  by rewrite flip_circuit_mapping_spec.
Qed.

Lemma flip_circuit_simple_spec (qubits : list Z) :
  QbFlipSimple.flip_circuit qubits =
  match mapM (Py.index (length qubits)) qubits with
  | Some targets =>
      Return (measure_all
                (with_gates
                   (new_circuit [QuantumRegister (length qubits) "qb"]
                      [ClassicalRegister (length qubits) "c"] None)
                   targets),
              map_seq 0 qubits)
  | None => Raise CircuitError
  end.
Proof.
  unfold QbFlipSimple.flip_circuit. rewrite x_loop.
  change (num_qubits (new_circuit _ _ _)) with (length qubits + 0)%nat.
  rewrite Nat.add_0_r.
  destruct (mapM (Py.index (length qubits)) qubits) as [targets|];
    cbn [mbind result_bind]; [|done].
  change (QbFlipSimple.flip_circuit_mapping ?r ?q)
    with (QbFlip.flip_circuit_mapping r q).
  by rewrite flip_circuit_mapping_spec.
Qed.

(** [flip_circuit] returns exactly when every element of [qubits] is an
    index into a register of [len(qubits)] qubits. *)
Lemma flip_circuit_returns_iff (qubits : list Z) :
  returns (QbFlip.flip_circuit qubits) <->
  Forall (fun q => - Z.of_nat (length qubits) <= q < Z.of_nat (length qubits))
         qubits.
Proof.
  rewrite flip_circuit_spec. split.
  - intros [res Hres].
    destruct (mapM _ qubits) as [targets|] eqn:Hm; [|done].
    assert (is_Some (mapM (Py.index (length qubits)) qubits)) as Hsome
      by (by rewrite Hm).
    apply mapM_is_Some in Hsome.
    eapply Forall_impl; [exact Hsome|]. intros q [n Hn]. cbn in Hn.
    by apply index_Some in Hn as [_ ?].
  - intros Hall.
    assert (is_Some (mapM (Py.index (length qubits)) qubits)) as [ts Hts].
    { apply mapM_is_Some. eapply Forall_impl; [exact Hall|].
      intros q Hq. cbn.
      destruct (Py.index (length qubits) q) eqn:Hi; [done|].
      by apply index_None in Hi. }
    rewrite Hts. by eexists.
Qed.

(** Whenever [flip_circuit] returns, the mapping it returns is the one
    the specification describes. *)
Lemma flip_circuit_mapping_ok qubits qc (mapping : gmap nat Z) :
  QbFlip.flip_circuit qubits = Return (qc, mapping) ->
  (forall i : nat, mapping !! i = qubits !! i) /\
  size mapping = length qubits /\
  (NoDup qubits ->
   forall (i j : nat) v,
     mapping !! i = Some v -> mapping !! j = Some v -> i = j).
Proof.
  rewrite flip_circuit_spec.
  destruct (mapM _ qubits) as [targets|]; [|done].
  intros [= _ <-]. split; [|split].
  - intros i. apply lookup_map_seq_0.
  - rewrite <- (size_dom (D := gset nat)), dom_seq_L. apply size_set_seq.
  - intros Hnd i j v. rewrite !lookup_map_seq_0.
    intros Hi Hj. by eapply NoDup_lookup.
Qed.

(** When the elements of [qubits] are the positions [0 .. k-1] in some
    order, the circuit has [k] qubits, an X on every position, then the
    barrier and the measurement of every qubit. *)
Lemma flip_circuit_on_positions (qubits : list Z) :
  Forall (fun q => 0 <= q < Z.of_nat (length qubits)) qubits ->
  exists qc,
    QbFlip.flip_circuit qubits = Return (qc, map_seq 0 qubits) /\
    num_qubits qc = length qubits /\
    data qc = (XGate <$> (Z.to_nat <$> qubits))
                ++ Barrier (seq 0 (length qubits))
                :: ((fun i => Measure i i) <$> seq 0 (length qubits)).
Proof.
  intros Hall. rewrite flip_circuit_spec.
  assert (mapM (Py.index (length qubits)) qubits
          = Some (Z.to_nat <$> qubits)) as ->.
  { apply mapM_Some. apply Forall2_fmap_r, Forall_Forall2_diag.
    eapply Forall_impl; [exact Hall|]. intros q Hq. cbn in Hq |- *.
    rewrite <- (Z2Nat.id q) at 1 by lia. apply index_of_nat. lia. }
  eexists. split; [done|]. split.
  - cbn. lia.
  - cbn. rewrite Nat.add_0_r. done.
Qed.

(** Distinct positions below [k], [k] of them, are all the positions
    below [k]. *)
Lemma positions_covered (l : list nat) (k i : nat) :
  NoDup l -> Forall (fun p => (p < k)%nat) l -> length l = k ->
  (i < k)%nat -> i ∈ l.
Proof.
  intros Hnd Hall Hlen Hi.
  assert (l ⊆+ seq 0 k) as Hsub.
  { apply NoDup_submseteq; [done|]. intros p Hp.
    rewrite Forall_forall in Hall. apply elem_of_seq.
    specialize (Hall p Hp). lia. }
  apply submseteq_length_Permutation in Hsub; [|rewrite length_seq; lia].
  rewrite Hsub. apply elem_of_seq. lia.
Qed.

End Builders.

(** C2: [flip_circuit] uses each element of [qubits] as a position in the
    register ([qc.x(qubit)]), so for the two distinct qubits 2 and 4 the
    register has two qubits and the first gate asks for position 2: the
    call raises [CircuitError] instead of giving a circuit with an X on
    positions 0 and 1; both scripts behave so.  The circuit is the one
    described (as many qubits as requested, an X on every position, then
    the barrier and the measurement of every qubit, no position out of the
    register) when the distinct elements are themselves positions of the
    register. *)
Theorem C2_flip_circuit_gate_positions :
  (NoDup [2; 4] /\
   QbFlip.flip_circuit [2; 4] = Raise CircuitError /\
   QbFlipSimple.flip_circuit [2; 4] = Raise CircuitError) /\
  (forall qubits : list Z,
     qubits <> [] -> NoDup qubits ->
     Forall (fun q => 0 <= q < Z.of_nat (length qubits)) qubits ->
     exists qc mapping,
       QbFlip.flip_circuit qubits = Return (qc, mapping) /\
       Qiskit.num_qubits qc = length qubits /\
       (forall i, (i < length qubits)%nat -> i ∈ Qiskit.x_targets qc) /\
       Qiskit.data qc
         = (Qiskit.XGate <$> Qiskit.x_targets qc)
             ++ Qiskit.Barrier (seq 0 (length qubits))
             :: ((fun i => Qiskit.Measure i i) <$> seq 0 (length qubits)) /\
       Forall (fun ins =>
                 Forall (fun p => (p < length qubits)%nat)
                        (Qiskit.touched ins))
              (Qiskit.data qc)).
Proof.
  split.
  { split; [|split; vm_compute; reflexivity].
    apply NoDup_cons. split; [|apply NoDup_singleton].
    rewrite list_elem_of_singleton. discriminate. }
  intros qubits _ Hnd Hall.
  destruct (flip_circuit_on_positions qubits Hall) as (qc & Hrun & Hn & Hdata).
  assert (Qiskit.x_targets qc = Z.to_nat <$> qubits) as Htargets.
  { unfold Qiskit.x_targets. rewrite Hdata, omap_app.
    assert (forall l first,
              omap (fun i => match i with
                             | Qiskit.XGate q => Some q
                             | _ => None
                             end)
                   ((fun i => Qiskit.Measure i (first + i)) <$> l) = [])
      as Hmeasure by (induction l; intros; cbn; [done|auto]).
    cbn [omap list_omap]. rewrite (Hmeasure _ 0%nat), app_nil_r.
    generalize (Z.to_nat <$> qubits). induction l as [|t l IH]; cbn; [done|].
    by rewrite IH. }
  assert (Forall (fun p => (p < length qubits)%nat) (Z.to_nat <$> qubits))
    as Hbelow.
  { apply Forall_fmap. eapply Forall_impl; [exact Hall|].
    intros q Hq. cbn in Hq |- *. lia. }
  exists qc, (map_seq 0 qubits). split; [done|]. split; [done|].
  split; [|split].
  - intros i Hi. rewrite Htargets.
    apply (positions_covered _ (length qubits)); [|done| |done].
    + apply NoDup_fmap_2_strong; [|done].
      intros p q Hp Hq Heq. rewrite Forall_forall in Hall.
      pose proof (Hall p Hp). pose proof (Hall q Hq). lia.
    + by rewrite length_fmap.
  - by rewrite Htargets.
  - rewrite Hdata. apply Forall_app. split.
    + apply Forall_fmap. eapply Forall_impl; [exact Hbelow|].
      intros p Hp. cbn. by apply Forall_singleton.
    + apply Forall_cons. split.
      * cbn. apply Forall_forall. intros p Hp. apply elem_of_seq in Hp. lia.
      * apply Forall_fmap, Forall_forall. intros p Hp.
        apply elem_of_seq in Hp. cbn. apply Forall_singleton. lia.
Qed.

Lemma C2_flip_circuit_default_witness :
  exists qc mapping,
    QbFlip.flip_circuit [0; 1; 2; 3; 4] = Return (qc, mapping) /\
    Qiskit.num_qubits qc = 5%nat /\
    (forall i, (i < 5)%nat -> i ∈ Qiskit.x_targets qc).
Proof.
  destruct (proj2 C2_flip_circuit_gate_positions [0; 1; 2; 3; 4])
    as (qc & mapping & Hrun & Hn & Hx & _).
  - discriminate.
  - apply (bool_decide_unpack (NoDup [0; 1; 2; 3; 4])). vm_compute. exact I.
  - repeat (apply Forall_cons; split; [cbn; lia|]). apply Forall_nil_2.
  - by exists qc, mapping.
Defined.

(** C3: the single-qubit builder returns for every [q]; the general builder
    on the one-element list [[q]] gives the same circuit and mapping only
    for [q = 0] and [q = -1] (the two integers that index a register of one
    qubit) and raises [CircuitError] for every other [q]. *)
Theorem C3_builders_agree_only_on_position_0 (q : Z) :
  returns (QbFlip.single_flip_circuit q) /\
  (QbFlip.flip_circuit [q] = QbFlip.single_flip_circuit q <->
   q = 0 \/ q = -1) /\
  (q <> 0 -> q <> -1 -> QbFlip.flip_circuit [q] = Raise CircuitError).
Proof.
  assert (q <> 0 -> q <> -1 -> QbFlip.flip_circuit [q] = Raise CircuitError)
    as Hraise.
  { intros H0 H1. rewrite flip_circuit_spec. cbn [mapM length].
    replace (Py.index 1 q) with (@None nat); [done|].
    symmetry. apply index_None. cbn. lia. }
  split; [by eexists|]. split; [|exact Hraise].
  split.
  - intros Heq.
    destruct (decide (q = 0)) as [|H0]; [by left|].
    destruct (decide (q = -1)) as [|H1]; [by right|].
    rewrite Hraise in Heq by done. discriminate.
  - intros [-> | ->]; vm_compute; reflexivity.
Qed.

Lemma C3_builders_witness :
  QbFlip.flip_circuit [3] = Raise CircuitError /\
  returns (QbFlip.single_flip_circuit 3).
Proof.
  split.
  - apply (proj2 (proj2 (C3_builders_agree_only_on_position_0 3))); lia.
  - apply (proj1 (C3_builders_agree_only_on_position_0 3)).
Defined.

(** C4: building for the qubits 2 and 4 gives no mapping at all, because
    the gate loop raises before the mapping is made; the dictionary
    comprehension on its own gives [{0: 2, 1: 4}], and whenever
    [flip_circuit] returns, its mapping sends position [i] to [qubits[i]],
    has as many keys as there are qubits, and is injective when the qubits
    are distinct. *)
Theorem C4_flip_circuit_mapping :
  (forall qc mapping, QbFlip.flip_circuit [2; 4] <> Return (qc, mapping)) /\
  QbFlip.flip_circuit_mapping (Qiskit.QuantumRegister 2 "qb") [2; 4]
    = Return {[ 0%nat := 2; 1%nat := 4 ]} /\
  (forall qubits qc (mapping : gmap nat Z),
     QbFlip.flip_circuit qubits = Return (qc, mapping) ->
     (forall i : nat, mapping !! i = qubits !! i) /\
     size mapping = length qubits /\
     (NoDup qubits ->
      forall (i j : nat) v,
        mapping !! i = Some v -> mapping !! j = Some v -> i = j)).
Proof.
  split; [|split].
  - intros qc mapping. vm_compute. discriminate.
  - vm_compute. reflexivity.
  - apply flip_circuit_mapping_ok.
Qed.

Lemma C4_flip_circuit_mapping_witness :
  exists qc (mapping : gmap nat Z),
    QbFlip.flip_circuit [1; 0] = Return (qc, mapping) /\
    mapping !! 0%nat = Some 1 /\ mapping !! 1%nat = Some 0 /\
    size mapping = 2%nat.
Proof.
  destruct (QbFlip.flip_circuit [1; 0]) as [[qc mapping]|e] eqn:Hrun;
    [|vm_compute in Hrun; discriminate].
  destruct (proj2 (proj2 C4_flip_circuit_mapping) _ _ _ Hrun)
    as (Hlookup & Hsize & _).
  exists qc, mapping. split; [done|].
  rewrite !Hlookup. by repeat split.
Defined.

(** C10: [single_flip_circuit q] returns for every integer [q], negative
    or beyond any device: the circuit does not depend on [q], and the
    mapping sends register position 0 to [q] itself.  The variant of
    [qb_flip_simple.py] differs by its extra classical register [c]. *)
Theorem C10_single_flip_circuit_total (q : Z) :
  QbFlip.single_flip_circuit q =
    Return ({| Qiskit.name := None;
               Qiskit.qregs := [Qiskit.QuantumRegister 1 "qb"];
               Qiskit.cregs := [Qiskit.ClassicalRegister 1 "meas"];
               Qiskit.data := [Qiskit.XGate 0; Qiskit.Barrier [0%nat];
                               Qiskit.Measure 0 0] |},
            {[ 0%nat := q ]}) /\
  QbFlipSimple.single_flip_circuit q =
    Return ({| Qiskit.name := None;
               Qiskit.qregs := [Qiskit.QuantumRegister 1 "qb"];
               Qiskit.cregs := [Qiskit.ClassicalRegister 1 "c";
                                Qiskit.ClassicalRegister 1 "meas"];
               Qiskit.data := [Qiskit.XGate 0; Qiskit.Barrier [0%nat];
                               Qiskit.Measure 0 1] |},
            {[ 0%nat := q ]}).
Proof. split; reflexivity. Qed.

(** ** Workflow *)

Section Workflow.
Import Qiskit SDK QbFlip.
Context {World : Type} `{!Server World}.
Variable execute :
  QuantumCircuit -> Backend -> Z -> option (gmap nat Z) ->
  World -> result Job * World.

Lemma circuits_loop (qubits : list Z) : forall acc,
  for_each (fun circuit_mapping_pairs qb =>
              pair ← single_flip_circuit qb;
              Return (circuit_mapping_pairs ++ [pair]))
           acc qubits
  = Return (acc ++ (one_qubit_pair <$> qubits)).
Proof.
  induction qubits as [|qb qubits IH]; intros acc; cbn [for_each fmap list_fmap].
  - by rewrite app_nil_r.
  - change (single_flip_circuit qb) with (Return (one_qubit_pair qb)).
    cbn [mbind result_bind]. rewrite IH. by rewrite <- app_assoc.
Qed.

Lemma flip_qubits_circuits_some (qubits : list Z) :
  flip_qubits_circuits (Some qubits) = Return (one_qubit_pair <$> qubits).
Proof. apply (circuits_loop qubits []). Qed.

(** One turn of the loop submits one job; it prints a score exactly
    when it returns, and the score is the one of that job against the
    desired bitstring of the run; it never reads the environment. *)
Lemma flip_qubits_job_spec qubits backend shots verbose i circuit mapping
    w r w' t :
  flip_qubits_job execute qubits backend shots verbose i circuit mapping w
    = (r, w', t) ->
  executions t = [(circuit, backend, shots, Some mapping)] /\
  env_reads t = [] /\
  exists score,
    job_scores (desired_state qubits) t = [score] /\
    match r with
    | Return _ => Return <$> reports t = [score]
    | Raise e => reports t = []
    end.
Proof.
  unfold flip_qubits_job, call, when, print, lift, mbind, play_mbind,
    play_bind.
  destruct verbose, backend, qubits; cbn;
    repeat match goal with
      | |- context [execute ?c ?b ?n ?m ?w0] =>
          destruct (execute c b n m w0) as [[job|e] w1] eqn:Hexec; cbn
      | |- context [job_result ?j] =>
          destruct (job_result j) as [res|e] eqn:Hres; cbn
      | |- context [calculate_success_probability ?c ?n ?d] =>
          destruct (calculate_success_probability c n d)
            as [p|e] eqn:Hscore; cbn
      | |- context [Py.getitem ?l ?k] =>
          destruct (Py.getitem l k) as [first|e] eqn:Hfirst; cbn
      end;
    intros [= <- <- <-]; cbn; unfold score_of_reply; cbn;
    rewrite ?Hres; cbn; rewrite ?Hscore;
    (split; [reflexivity|]; split; [reflexivity|]; eexists;
     split; reflexivity).
Qed.

(** The loop, one turn at a time. *)
Lemma flip_qubits_jobs_cons qubits backend shots verbose i circuit mapping
    rest w :
  flip_qubits_jobs execute qubits backend shots verbose i
    ((circuit, mapping) :: rest) w =
  match flip_qubits_job execute qubits backend shots verbose i
          circuit mapping w with
  | (Return _, w1, t1) =>
      let '(r, w2, t2) :=
        flip_qubits_jobs execute qubits backend shots verbose (S i) rest w1 in
      (r, w2, t1 ++ t2)
  | (Raise e, w1, t1) => (Raise e, w1, t1)
  end.
Proof. reflexivity. Qed.

Lemma flip_qubits_jobs_app qubits backend shots verbose pre : forall i post w,
  flip_qubits_jobs execute qubits backend shots verbose i (pre ++ post) w =
  match flip_qubits_jobs execute qubits backend shots verbose i pre w with
  | (Return _, w1, t1) =>
      let '(r, w2, t2) :=
        flip_qubits_jobs execute qubits backend shots verbose
          (i + length pre) post w1 in
      (r, w2, t1 ++ t2)
  | (Raise e, w1, t1) => (Raise e, w1, t1)
  end.
Proof.
  induction pre as [|[circuit mapping] pre IH]; intros i post w.
  - cbn [app length flip_qubits_jobs]. rewrite Nat.add_0_r.
    cbn. by destruct (flip_qubits_jobs _ _ _ _ _ _ _ _) as [[r w2] t2].
  - rewrite <- app_comm_cons, !flip_qubits_jobs_cons.
    destruct (flip_qubits_job _ _ _ _ _ _ _ _ _) as [[[[]|e] w1] t1]; [|done].
    rewrite IH.
    destruct (flip_qubits_jobs _ _ _ _ _ _ pre w1) as [[[[]|e] w2] t2];
      [|done].
    cbn [length]. replace (S i + length pre)%nat with (i + S (length pre))%nat
      by lia.
    destruct (flip_qubits_jobs _ _ _ _ _ _ post w2) as [[r w3] t3].
    by rewrite app_assoc.
Qed.

(** A turn whose job fails raises the job's exception, after submitting
    the job and before printing any score. *)
Lemma flip_qubits_job_raises qubits backend shots verbose i circuit mapping
    w e :
  job_raises execute circuit backend shots mapping w e ->
  exists w' t,
    flip_qubits_job execute qubits backend shots verbose i circuit mapping w
      = (Raise e, w', t) /\
    reports t = [] /\
    executions t = [(circuit, backend, shots, Some mapping)].
Proof.
  unfold job_raises, flip_qubits_job, call, when, print, lift, mbind,
    play_mbind, play_bind.
  destruct (execute circuit backend shots (Some mapping) w)
    as [[job|e'] w1] eqn:Hexec; cbn;
    [destruct (job_result job) as [res|e'] eqn:Hres; cbn|];
    intros [= <-]; destruct verbose; cbn; rewrite ?Hexec; cbn;
    rewrite ?Hres; cbn; eauto.
Qed.

(** What a run of the loop leaves in the trace: one job per turn taken,
    in the order of the pairs, and one score per job that went through,
    computed against the desired bitstring of the run. *)
Lemma flip_qubits_jobs_spec qubits backend shots verbose pairs :
  forall i w r w' t,
    flip_qubits_jobs execute qubits backend shots verbose i pairs w
      = (r, w', t) ->
    env_reads t = [] /\
    executions t `prefix_of` (job_of backend shots <$> pairs) /\
    Return <$> reports t `prefix_of` job_scores (desired_state qubits) t /\
    (returns r ->
     executions t = job_of backend shots <$> pairs /\
     Return <$> reports t = job_scores (desired_state qubits) t).
Proof.
  induction pairs as [|[circuit mapping] pairs IH]; intros i w r w' t.
  - cbn. intros [= <- <- <-]. cbn. by repeat split.
  - rewrite flip_qubits_jobs_cons.
    destruct (flip_qubits_job _ _ _ _ _ _ _ _ _) as [[r1 w1] t1] eqn:Hturn.
    apply flip_qubits_job_spec in Hturn
      as (Hexec & Henv & score & Hscores & Hreports).
    destruct r1 as [[]|e].
    + destruct (flip_qubits_jobs _ _ _ _ _ _ pairs w1) as [[r2 w2] t2] eqn:Hrest.
      apply IH in Hrest as (Henv2 & Hexec2 & Hpre2 & Hret2).
      intros [= <- <- <-].
      unfold env_reads, executions, reports, job_scores in *.
      rewrite !omap_app, ?fmap_app.
      rewrite Henv, Henv2, Hexec, Hscores, Hreports. cbn [fmap list_fmap app].
      split; [done|]. split; [by apply prefix_cons|].
      split; [by apply prefix_cons|].
      intros Hr. destruct (Hret2 Hr) as [-> ->]. done.
    + intros [= <- <- <-]. rewrite Henv, Hexec, Hscores, Hreports.
      cbn [fmap list_fmap]. split; [done|].
      split; [apply prefix_cons, prefix_nil|].
      split; [apply prefix_nil|]. intros [a Ha]. discriminate.
Qed.

(** The backend of a run: the endpoint is read, and its server asked,
    only for ['helmi']. *)
Lemma flip_qubits_backend_spec environ backend (w : World) :
  flip_qubits_backend environ backend w =
  if String.eqb backend "helmi" then
    if falsy (environ !! "HELMI_CORTEX_URL") then
      (Raise (ValueError "Environment variable HELMI_CORTEX_URL is not set"),
       w, [Getenv "HELMI_CORTEX_URL"])
    else
      let url := default "" (environ !! "HELMI_CORTEX_URL") in
      (_ ← (connect url w).1; Return (IQMBackend url), (connect url w).2,
       [Getenv "HELMI_CORTEX_URL"; Connect url (connect url w).1])
  else (Return AerSimulator, w, []).
Proof.
  unfold flip_qubits_backend. destruct (String.eqb backend "helmi"); [|done].
  unfold mbind at 1. unfold play_mbind, play_bind.
  unfold mbind at 1. unfold play_mbind, play_bind, getenv.
  destruct (falsy (environ !! "HELMI_CORTEX_URL")); [done|].
  cbn [mret play_ret lift app get_backend].
  by destruct (connect _ w) as [reply w'].
Qed.

Lemma flip_qubits_unfold environ qubits backend shots verbose w :
  flip_qubits execute environ qubits backend shots verbose w =
  match flip_qubits_backend environ backend w with
  | (Return b, w0, t0) =>
      match flip_qubits_circuits qubits with
      | Return pairs =>
          let '(r, w1, t1) :=
            flip_qubits_jobs execute qubits b shots verbose 0 pairs w0 in
          (r, w1, t0 ++ t1)
      | Raise e => (Raise e, w0, t0)
      end
  | (Raise e, w0, t0) => (Raise e, w0, t0)
  end.
Proof.
  unfold flip_qubits, mbind, play_mbind, play_bind, lift.
  destruct (flip_qubits_backend environ backend w) as [[[b|e] w0] t0]; [|done].
  destruct (flip_qubits_circuits qubits) as [pairs|e].
  - by destruct (flip_qubits_jobs _ _ _ _ _ _ _ _) as [[r w1] t1].
  - by rewrite app_nil_r.
Qed.

Lemma backend_trace environ backend (w : World) r w0 t0 :
  flip_qubits_backend environ backend w = (r, w0, t0) ->
  executions t0 = [] /\ reports t0 = [] /\
  forall desired, job_scores desired t0 = [].
Proof.
  rewrite flip_qubits_backend_spec.
  destruct (String.eqb backend "helmi");
    [destruct (falsy _)|]; intros [= <- <- <-]; done.
Qed.

(** C1, as the code has it: a failing job is not caught.  When the turns
    before it went through and the job of the next pair fails with [e],
    the loop raises [e] there: the trace so far is kept, the failing job is
    the last thing submitted, no score is printed for it, and the pairs
    after it are never run. *)
Theorem C1_failed_job_stops_the_loop qubits backend shots verbose i
    pre circuit mapping post w w1 t1 e :
  flip_qubits_jobs execute qubits backend shots verbose i pre w
    = (Return tt, w1, t1) ->
  job_raises execute circuit backend shots mapping w1 e ->
  exists w2 t2,
    flip_qubits_jobs execute qubits backend shots verbose i
      (pre ++ (circuit, mapping) :: post) w
      = (Raise e, w2, t1 ++ t2) /\
    reports t2 = [] /\
    executions t2 = [(circuit, backend, shots, Some mapping)].
Proof.
  intros Hpre Hfail.
  rewrite flip_qubits_jobs_app, Hpre, flip_qubits_jobs_cons.
  destruct (flip_qubits_job_raises qubits backend shots verbose
              (i + length pre) circuit mapping w1 e Hfail)
    as (w2 & t2 & -> & Hreports & Hexec).
  by exists w2, t2.
Qed.

(** C7: with ['helmi'] and no [HELMI_CORTEX_URL] in the environment,
    [flip_qubits] raises the [ValueError] that names the variable, having
    only read the environment: nothing is submitted and the world is as it
    was; [first_quantum_job.py] stops the same way.  With ['simulator'] the
    backend is there without any read of the environment, and the whole
    run never reads it. *)
Theorem C7_backend_selection environ qubits shots verbose (w : World) :
  (environ !! "HELMI_CORTEX_URL" = None ->
   let run := flip_qubits execute environ qubits "helmi" shots verbose w in
   run =
     (Raise (ValueError "Environment variable HELMI_CORTEX_URL is not set"),
      w, [Getenv "HELMI_CORTEX_URL"]) /\
   executions run.2 = [] /\
   FirstQuantumJob.script execute environ w =
     (Raise (ValueError "Environment variable HELMI_CORTEX_URL is not set"),
      w, [Getenv "HELMI_CORTEX_URL"])) /\
  flip_qubits_backend environ "simulator" w = (Return AerSimulator, w, []) /\
  env_reads
    (flip_qubits execute environ qubits "simulator" shots verbose w).2 = [].
Proof.
  split; [|split].
  - intros Habsent run.
    assert (run =
      (Raise (ValueError "Environment variable HELMI_CORTEX_URL is not set"),
       w, [Getenv "HELMI_CORTEX_URL"])) as Hrun.
    { subst run.
      by rewrite flip_qubits_unfold, flip_qubits_backend_spec, Habsent. }
    split; [exact Hrun|]. split; [by rewrite Hrun|].
    unfold FirstQuantumJob.script, mbind, play_mbind, play_bind, getenv.
    cbn. rewrite Habsent. done.
  - by rewrite flip_qubits_backend_spec.
  - rewrite flip_qubits_unfold, flip_qubits_backend_spec.
    cbn [String.eqb Ascii.eqb Bool.eqb].
    destruct (flip_qubits_circuits qubits) as [pairs|e]; [|done].
    destruct (flip_qubits_jobs _ _ _ _ _ _ _ _) as [[r w1] t1] eqn:Hrun.
    apply flip_qubits_jobs_spec in Hrun as [Henv _]. exact Henv.
Qed.


End Workflow.

(** ** The workflow on the bench backends *)

Import Qiskit SDK QbFlip.

(** C1, as the specification has it, fails on the run it names: over the
    qubits 0, 1 and 2 with the job of qubit 1 refused, [flip_qubits] ends
    with the backend's exception, one score has been printed (qubit 0),
    two jobs have been submitted and the job of qubit 2 never runs; there
    are not three entries in the report. *)
Lemma C1_counterexample_qubit_1_refused :
  let run := flip_qubits Bench.qubit_1_refused ∅ (Some [0; 1; 2])
               "simulator" 1000 false tt in
  run.1.1 = Raise (SDKError "SubmissionError") /\
  reports run.2 = [Py.float_1_0] /\
  executions run.2
    = job_of AerSimulator 1000 <$> (one_qubit_pair <$> [0; 1]) /\
  length (reports run.2) <> 3%nat.
Proof. vm_compute. repeat split; discriminate. Qed.

Lemma C1_failed_job_witness :
  exists t1 t2,
    flip_qubits_jobs Bench.qubit_1_refused (Some [0; 1; 2]) AerSimulator
      1000 false 0 (one_qubit_pair <$> [0; 1; 2]) tt
      = (Raise (SDKError "SubmissionError"), tt, t1 ++ t2) /\
    reports t1 = [Py.float_1_0] /\
    reports t2 = [] /\
    executions t2 = [job_of AerSimulator 1000 (one_qubit_pair 1)].
Proof.
  set (before := flip_qubits_jobs Bench.qubit_1_refused (Some [0; 1; 2])
                   AerSimulator 1000 false 0 [one_qubit_pair 0] tt).
  destruct (C1_failed_job_stops_the_loop Bench.qubit_1_refused
              (Some [0; 1; 2]) AerSimulator 1000 false 0%nat
              [one_qubit_pair 0] one_qubit_flip {[ 0%nat := 1 ]}
              [one_qubit_pair 2] tt tt before.2
              (SDKError "SubmissionError"))
    as (w2 & t2 & Hrun & Hreports & Hexec).
  - vm_compute. reflexivity.
  - vm_compute. reflexivity.
  - exists before.2, t2. destruct w2. split; [exact Hrun|].
    split; [vm_compute; reflexivity|]. split; [exact Hreports|exact Hexec].
Defined.

Lemma C7_backend_selection_witness :
  flip_qubits Bench.all_flipped ∅ (Some [0; 1; 2]) "helmi" 1000 false 0%nat
    = (Raise (ValueError "Environment variable HELMI_CORTEX_URL is not set"),
       0%nat, [Getenv "HELMI_CORTEX_URL"]).
Proof.
  apply (proj1 (C7_backend_selection Bench.all_flipped ∅ (Some [0; 1; 2])
                  1000 false 0%nat)).
  apply lookup_empty.
Defined.


(** * Further properties of the scripts *)

(** ** The score as a probability *)

Section Probability.
Import Py.

(** Rounding a mantissa whose value is below one gives a zero or a
    finite number that is at most one. *)
Lemma binary_round_aux_le_one s m e l :
  0 <= m < 2 ^ (- e) -> e <= -53 ->
  match binary_round_aux prec emax s m e l with
  | S754_zero s' => s' = s
  | S754_finite s' m' e' => s' = s /\ e' <= -52 /\ Z.pos m' <= 2 ^ (- e')
  | _ => False
  end.
Proof.
  intros [Hm Hlt] He. unfold binary_round_aux.
  destruct (shr_fexp_spec m e l Hm) as [He1 Hm1].
  destruct (shr_fexp prec emax m e l) as [mrs1 e1]. cbn [fst snd] in *.
  rewrite <- He1 in Hm1.
  set (m2 := round_nearest_even _ _).
  pose proof (round_nearest_even_bounds (shr_m mrs1)
                (loc_of_shr_record mrs1)) as Hm2. fold m2 in Hm2.
  pose proof (Zdigits2_nonneg m) as Hd0.
  assert (Zdigits2 m <= - e) as Hd by (apply Zdigits2_le; lia).
  rewrite fexp_binary64 in He1.
  assert (e <= e1 <= -53) as He1b by lia.
  assert (0 <= shr_m mrs1 < 2 ^ (- e1)) as Hm1b.
  { rewrite Hm1. split; [apply Z.div_pos; lia|].
    apply Z.div_lt_upper_bound; [lia|].
    rewrite <- Z.pow_add_r by lia.
    by replace (e1 - e + - e1) with (- e) by lia. }
  assert (0 <= m2 <= 2 ^ (- e1)) as Hm2b by lia.
  assert (Zdigits2 m2 <= - e1 + 1) as Hd2.
  { apply Zdigits2_le; [lia|]. rewrite Z.pow_add_r, Z.pow_1_r by lia. lia. }
  destruct (shr_fexp_spec m2 e1 loc_Exact (proj1 Hm2b)) as [He2 Hm3].
  destruct (shr_fexp prec emax m2 e1 loc_Exact) as [mrs2 e2].
  cbn [fst snd] in *. rewrite <- He2 in Hm3. rewrite fexp_binary64 in He2.
  pose proof (Zdigits2_nonneg m2) as Hd20.
  assert (e1 <= e2 <= -52) as He2b by lia.
  assert (0 <= shr_m mrs2 <= 2 ^ (- e2)) as Hm3b.
  { rewrite Hm3. split; [apply Z.div_pos; lia|].
    apply Z.div_le_upper_bound; [lia|].
    rewrite <- Z.pow_add_r by lia.
    replace (e2 - e1 + - e2) with (- e1) by lia. lia. }
  destruct (shr_m mrs2) as [|p|p]; [done| |lia].
  replace (e2 <=? emax - prec) with true
    by (symmetry; apply Z.leb_le; unfold emax, prec; lia).
  split; [done|]. split; lia.
Qed.

(** The quotient of an integer by itself is [1.0]. *)
Lemma quotient_diag (n : positive) : quotient (Z.pos n) (Z.pos n) = float_1_0.
Proof.
  unfold quotient. cbn [operand SFdiv xorb]. unfold SFdiv_core_binary.
  replace (Zdigits2 (Z.pos n) + 0 - (Zdigits2 (Z.pos n) + 0)) with 0 by lia.
  change (Z.min (fexp prec emax 0) (0 - 0)) with (-53).
  change (0 - 0 - -53) with 53.
  cbv beta iota zeta.
  assert (Z.div_eucl (Z.shiftl (Z.pos n) 53) (Z.pos n) = (2 ^ 53, 0)) as ->.
  { pose proof (Z_div_mod (Z.shiftl (Z.pos n) 53) (Z.pos n) eq_refl) as H.
    destruct (Z.div_eucl _ _) as [q r]. destruct H as [Hq Hr].
    rewrite Z.shiftl_mul_pow2 in Hq by lia.
    assert (q = 2 ^ 53) as -> by nia. f_equal. lia. }
  assert (new_location (Z.pos n) 0 = loc_Exact) as ->.
  { unfold new_location, new_location_even, new_location_odd.
    by destruct (Z.even (Z.pos n)). }
  vm_compute. reflexivity.
Qed.

(** The quotient of a count by a larger total, as a float, lies between
    [0.0] and [1.0] for the comparison of floats. *)
Lemma quotient_fraction_le_one (a b : Z) :
  0 <= a <= b -> 0 < b ->
  SFleb float_0_0 (quotient a b) = true /\
  SFleb (quotient a b) float_1_0 = true.
Proof.
  intros [Ha Hab] Hb.
  destruct (Z.eq_dec a b) as [->|Hne].
  { destruct b as [|b|b]; try lia. rewrite quotient_diag. by vm_compute. }
  destruct b as [|b|b]; try lia. destruct a as [|a|a]; try lia.
  { by vm_compute. }
  unfold quotient. cbn [operand SFdiv xorb]. unfold SFdiv_core_binary.
  rewrite !Z.add_0_r, Z.sub_0_r.
  set (e := Z.min _ 0).
  assert (e <= -53) as He.
  { subst e. rewrite fexp_binary64.
    assert (Zdigits2 (Z.pos a) <= Zdigits2 (Z.pos b)).
    { apply Zdigits2_le; [apply Zdigits2_nonneg|].
      pose proof (Zdigits2_gt (Z.pos b)). lia. }
    assert (-1074 <= -53) by lia. lia. }
  set (m' := match 0 - e with Z.pos _ => _ | _ => _ end).
  assert (m' = Z.pos a * 2 ^ (- e)) as Hm'.
  { subst m'. destruct (0 - e) as [|p|p] eqn:Hs; [lia| |lia].
    rewrite Z.shiftl_mul_pow2 by lia. f_equal. f_equal. lia. }
  pose proof (Z_div_mod m' (Z.pos b) eq_refl) as Hdiv.
  destruct (Z.div_eucl m' (Z.pos b)) as [q r]. destruct Hdiv as [Hq Hr].
  assert (0 < 2 ^ (- e)) as Hpow by (apply Z.pow_pos_nonneg; lia).
  assert (0 <= q < 2 ^ (- e)) as Hqb by nia.
  pose proof (binary_round_aux_le_one false q e
                (new_location (Z.pos b) r) Hqb He) as Hround.
  destruct (binary_round_aux prec emax false q e _) as [s|s| |s m2 e2];
    try done.
  destruct Hround as (-> & He2 & Hm2). split; [done|].
  unfold SFleb, SFcompare, float_1_0.
  destruct (Z.compare_spec e2 (-52)) as [->|Hlt|Hgt]; [|done|lia].
  change (2 ^ (- -52)) with (Z.pos 4503599627370496) in Hm2.
  destruct (Pos.compare_cont Eq m2 4503599627370496) eqn:Hc;
    [reflexivity|reflexivity|].
  apply Pos.compare_gt_iff in Hc. lia.
Qed.

End Probability.

(** X1: for the counts of a job (a histogram of [shots] outcomes, as the
    docstring of [calculate_success_probability] describes them) and
    [shots > 0], the call returns, and the score is a probability: a float
    [p] with [0.0 <= p <= 1.0]. *)
Theorem X1_score_is_a_probability
    (counts : gmap string Z) (shots : Z) (desired_state : string) :
  histogram counts shots -> 0 < shots ->
  exists p,
    QbFlip.calculate_success_probability counts shots desired_state
      = Return p /\
    SFleb Py.float_0_0 p = true /\ SFleb p Py.float_1_0 = true.
Proof.
  intros Hhist Hshots.
  pose proof (histogram_count counts shots desired_state Hhist) as Hcount.
  exists (Py.quotient (default 0 (counts !! desired_state)) shots).
  split.
  - by apply truediv_fraction.
  - by apply quotient_fraction_le_one.
Qed.

Lemma X1_score_witness :
  exists p,
    QbFlip.calculate_success_probability
      {[ "1" := 700; "0" := 300 ]} 1000 "1" = Return p /\
    SFleb Py.float_0_0 p = true /\ SFleb p Py.float_1_0 = true.
Proof.
  apply X1_score_is_a_probability; [|lia].
  split.
  - apply map_Forall_insert_2; [lia|].
    apply map_Forall_insert_2; [lia|]. apply map_Forall_empty.
  - vm_compute. reflexivity.
Defined.

(** X2: when every shot gave the desired bitstring (its count is [shots],
    [shots > 0]) the score is exactly [1.0], whatever the number of
    shots. *)
Theorem X2_all_shots_desired_scores_one
    (counts : gmap string Z) (shots : Z) (desired_state : string) :
  counts !! desired_state = Some shots -> 0 < shots ->
  QbFlip.calculate_success_probability counts shots desired_state
    = Return Py.float_1_0.
Proof.
  intros Hcount Hshots. unfold QbFlip.calculate_success_probability.
  rewrite Hcount. cbn [default from_option id]. unfold Py.truediv.
  replace (shots =? 0) with false by (symmetry; apply Z.eqb_neq; lia).
  destruct shots as [|n|n]; try lia. by rewrite quotient_diag.
Qed.

Lemma X2_all_shots_witness :
  QbFlip.calculate_success_probability {[ "11111" := 1000 ]} 1000 "11111"
    = Return Py.float_1_0.
Proof.
  apply X2_all_shots_desired_scores_one; [|lia].
  vm_compute. reflexivity.
Defined.

(** ** The circuit builders on any list of integers *)

Section BuildersMore.
Import Qiskit.

Lemma mapM_index_is_Some (k : nat) (qubits : list Z) :
  is_Some (mapM (Py.index k) qubits) <->
  Forall (fun q => - Z.of_nat k <= q < Z.of_nat k) qubits.
Proof.
  rewrite mapM_is_Some.
  split; intros H; (eapply Forall_impl; [exact H|]); intros q; cbn.
  - intros [n Hn]. by apply index_Some in Hn as [_ ?].
  - intros Hq. destruct (Py.index k q) eqn:Hi; [done|].
    by apply index_None in Hi.
Qed.

Lemma flip_circuit_simple_returns_iff (qubits : list Z) :
  returns (QbFlipSimple.flip_circuit qubits) <->
  Forall (fun q => - Z.of_nat (length qubits) <= q < Z.of_nat (length qubits))
         qubits.
Proof.
  rewrite flip_circuit_simple_spec, <- mapM_index_is_Some.
  destruct (mapM _ qubits) as [targets|]; split.
  - by eexists.
  - by eexists.
  - by intros [? ?].
  - by intros [? ?].
Qed.

(** The data of a flip circuit: the gates, the barrier, the measurements
    into the bits from [first] on. *)
Lemma flip_data_touched (k first : nat) (targets : list nat) :
  Forall (fun t => (t < k)%nat) targets ->
  Forall (fun ins => Forall (fun p => (p < k)%nat) (touched ins))
         ((XGate <$> targets)
            ++ Barrier (seq 0 k)
            :: ((fun i => Measure i (first + i)) <$> seq 0 k)).
Proof.
  intros Hbelow. apply Forall_app. split.
  - apply Forall_fmap. eapply Forall_impl; [exact Hbelow|].
    intros p Hp. cbn. by apply Forall_singleton.
  - apply Forall_cons. split.
    + cbn. apply Forall_forall. intros p Hp. apply elem_of_seq in Hp. lia.
    + apply Forall_fmap, Forall_forall. intros p Hp.
      apply elem_of_seq in Hp. cbn. apply Forall_singleton. lia.
Qed.

Lemma targets_below (k : nat) (qubits : list Z) (targets : list nat) :
  mapM (Py.index k) qubits = Some targets ->
  Forall2 (fun q t => Py.index k q = Some t) qubits targets /\
  Forall (fun t => (t < k)%nat) targets.
Proof.
  intros Hm. apply mapM_Some in Hm. split; [done|].
  induction Hm as [|q t qubits targets Hq _ IH]; [done|].
  apply Forall_cons. split; [|done]. by apply index_Some in Hq as [? _].
Qed.

End BuildersMore.

(** X3: [flip_circuit] (in both scripts) returns exactly when every
    element of [qubits] is an index into a list of [len(qubits)] items,
    that is lies in [-k, k); otherwise it raises [CircuitError], the error
    of the first gate that finds no qubit. *)
Theorem X3_flip_circuit_returns_iff (qubits : list Z) :
  let in_range :=
    Forall (fun q => - Z.of_nat (length qubits) <= q
                     < Z.of_nat (length qubits)) qubits in
  (returns (QbFlip.flip_circuit qubits) <-> in_range) /\
  (returns (QbFlipSimple.flip_circuit qubits) <-> in_range) /\
  (~ in_range ->
   QbFlip.flip_circuit qubits = Raise CircuitError /\
   QbFlipSimple.flip_circuit qubits = Raise CircuitError).
Proof.
  intros in_range. split; [apply flip_circuit_returns_iff|].
  split; [apply flip_circuit_simple_returns_iff|].
  intros Hnot. rewrite flip_circuit_spec, flip_circuit_simple_spec.
  destruct (mapM _ qubits) as [targets|] eqn:Hm; [|done].
  destruct Hnot. apply mapM_index_is_Some. by rewrite Hm.
Qed.

Lemma X3_flip_circuit_witness :
  QbFlip.flip_circuit [0; 5] = Raise CircuitError /\
  returns (QbFlip.flip_circuit [-1; -2]).
Proof.
  split.
  - apply (proj2 (proj2 (X3_flip_circuit_returns_iff [0; 5]))).
    intros H. apply Forall_cons in H as [_ H].
    apply Forall_cons in H as [H _]. cbn in H. lia.
  - apply (proj1 (X3_flip_circuit_returns_iff [-1; -2])).
    repeat (apply Forall_cons; split; [cbn; lia|]). apply Forall_nil_2.
Defined.

(** The circuit of [flip_circuit], whenever it returns. *)
Lemma flip_circuit_shape (qubits : list Z) qc (mapping : gmap nat Z) :
  QbFlip.flip_circuit qubits = Return (qc, mapping) ->
  let k := length qubits in
  Qiskit.qregs qc = [Qiskit.QuantumRegister k "qb"] /\
  Qiskit.cregs qc = [Qiskit.ClassicalRegister k "meas"] /\
  exists targets,
    Forall2 (fun q t => Py.index k q = Some t) qubits targets /\
    Qiskit.data qc
      = (Qiskit.XGate <$> targets)
          ++ Qiskit.Barrier (seq 0 k)
          :: ((fun i => Qiskit.Measure i i) <$> seq 0 k) /\
    Forall (fun ins => Forall (fun p => (p < k)%nat) (Qiskit.touched ins))
           (Qiskit.data qc).
Proof.
  rewrite flip_circuit_spec.
  destruct (mapM _ qubits) as [targets|] eqn:Hm; [|done].
  intros [= <- _] k. apply targets_below in Hm as [Hidx Hbelow]. fold k.
  split; [reflexivity|]. split; [cbn; by rewrite Nat.add_0_r|].
  exists targets. split; [done|].
  assert (Qiskit.data
            (Qiskit.measure_all
               (Qiskit.with_gates
                  (Qiskit.new_circuit [Qiskit.QuantumRegister k "qb"] [] None)
                  targets))
          = (Qiskit.XGate <$> targets)
              ++ Qiskit.Barrier (seq 0 k)
              :: ((fun i => Qiskit.Measure i (0 + i)) <$> seq 0 k)) as ->
    by (cbn; by rewrite Nat.add_0_r).
  split; [done|]. by apply flip_data_touched.
Qed.

(** X4: whenever [flip_circuit] of [qb_flip.py] returns, for any list
    (negative indices, repeated elements): the circuit has one quantum
    register [qb] of [len(qubits)] qubits and one classical register
    [meas] of the same size; its instructions are one X per element, at
    the position the element indexes, then the barrier over all qubits,
    then the measurement of qubit [i] into bit [i]; no instruction touches
    a position outside the register. *)
Theorem X4_flip_circuit_shape (qubits : list Z) qc (mapping : gmap nat Z) :
  QbFlip.flip_circuit qubits = Return (qc, mapping) ->
  let k := length qubits in
  Qiskit.qregs qc = [Qiskit.QuantumRegister k "qb"] /\
  Qiskit.cregs qc = [Qiskit.ClassicalRegister k "meas"] /\
  exists targets,
    Forall2 (fun q t => Py.index k q = Some t) qubits targets /\
    Qiskit.data qc
      = (Qiskit.XGate <$> targets)
          ++ Qiskit.Barrier (seq 0 k)
          :: ((fun i => Qiskit.Measure i i) <$> seq 0 k) /\
    Forall (fun ins => Forall (fun p => (p < k)%nat) (Qiskit.touched ins))
           (Qiskit.data qc).
Proof. apply flip_circuit_shape. Qed.

Lemma X4_flip_circuit_shape_witness :
  exists qc mapping,
    QbFlip.flip_circuit [-1; 0; -1] = Return (qc, mapping) /\
    Qiskit.data qc
      = [Qiskit.XGate 2; Qiskit.XGate 0; Qiskit.XGate 2;
         Qiskit.Barrier [0; 1; 2]%nat;
         Qiskit.Measure 0 0; Qiskit.Measure 1 1; Qiskit.Measure 2 2].
Proof.
  destruct (QbFlip.flip_circuit [-1; 0; -1]) as [[qc mapping]|e] eqn:Hrun;
    [|vm_compute in Hrun; discriminate].
  destruct (X4_flip_circuit_shape _ _ _ Hrun)
    as (_ & _ & ts & Hidx & Hdata & _).
  exists qc, mapping. split; [done|]. rewrite Hdata.
  apply Forall2_cons_inv_l in Hidx as (t0 & ts0 & H0 & Hidx & ->).
  apply Forall2_cons_inv_l in Hidx as (t1 & ts1 & H1 & Hidx & ->).
  apply Forall2_cons_inv_l in Hidx as (t2 & ts2 & H2 & Hidx & ->).
  apply Forall2_nil_inv_l in Hidx as ->.
  vm_compute in H0, H1, H2.
  injection H0 as <-; injection H1 as <-; injection H2 as <-. reflexivity.
Defined.

(** X5: whenever [flip_circuit] of [qb_flip_simple.py] returns, the circuit
    has two classical registers, the declared [c] and the [meas] that
    [measure_all] adds, [2 * len(qubits)] bits in all; qubit [i] is
    measured into bit [len(qubits) + i], so no measurement ever writes a
    bit of the register [c]. *)
Theorem X5_simple_flip_circuit_leaves_c_unused
    (qubits : list Z) qc (mapping : gmap nat Z) :
  QbFlipSimple.flip_circuit qubits = Return (qc, mapping) ->
  let k := length qubits in
  Qiskit.cregs qc = [Qiskit.ClassicalRegister k "c";
                     Qiskit.ClassicalRegister k "meas"] /\
  Qiskit.num_clbits qc = (2 * k)%nat /\
  (exists targets,
     Qiskit.data qc
       = (Qiskit.XGate <$> targets)
           ++ Qiskit.Barrier (seq 0 k)
           :: ((fun i => Qiskit.Measure i (k + i)) <$> seq 0 k)) /\
  forall q c, Qiskit.Measure q c ∈ Qiskit.data qc ->
              (q < k)%nat /\ c = (k + q)%nat.
Proof.
  rewrite flip_circuit_simple_spec.
  destruct (mapM _ qubits) as [targets|] eqn:Hm; [|done].
  intros [= <- _] k. fold k.
  assert (Qiskit.data
            (Qiskit.measure_all
               (Qiskit.with_gates
                  (Qiskit.new_circuit [Qiskit.QuantumRegister k "qb"]
                     [Qiskit.ClassicalRegister k "c"] None)
                  targets))
          = (Qiskit.XGate <$> targets)
              ++ Qiskit.Barrier (seq 0 k)
              :: ((fun i => Qiskit.Measure i (k + i)) <$> seq 0 k)) as Hdata
    by (cbn; by rewrite !Nat.add_0_r).
  split; [cbn; by rewrite Nat.add_0_r|]. split; [cbn; lia|].
  split; [by exists targets|].
  intros q c. rewrite Hdata, elem_of_app, list_elem_of_fmap, elem_of_cons,
    list_elem_of_fmap.
  intros [(t & Heq & _) | [Heq | (i & Heq & Hi)]]; try discriminate.
  injection Heq as -> ->. apply elem_of_seq in Hi. lia.
Qed.

Lemma X5_simple_flip_circuit_witness :
  exists qc mapping,
    QbFlipSimple.flip_circuit [0; 1; 2; 3; 4] = Return (qc, mapping) /\
    Qiskit.num_clbits qc = 10%nat /\
    forall q c, Qiskit.Measure q c ∈ Qiskit.data qc -> c = (5 + q)%nat.
Proof.
  destruct (QbFlipSimple.flip_circuit [0; 1; 2; 3; 4])
    as [[qc mapping]|e] eqn:Hrun; [|vm_compute in Hrun; discriminate].
  destruct (X5_simple_flip_circuit_leaves_c_unused _ _ _ Hrun)
    as (_ & Hbits & _ & Hmeasure).
  exists qc, mapping. split; [done|]. split; [exact Hbits|].
  intros q c Hin. by apply Hmeasure in Hin as [_ ?].
Defined.

Section Flipped.
Import Qiskit.

Lemma x_targets_flip_data (qc : QuantumCircuit) targets k first :
  data qc = (XGate <$> targets)
              ++ Barrier (seq 0 k)
              :: ((fun i => Measure i (first + i)) <$> seq 0 k) ->
  x_targets qc = targets.
Proof.
  intros Hdata. unfold x_targets. rewrite Hdata, omap_app.
  cbn [omap list_omap].
  assert (omap (fun i => match i with XGate q => Some q | _ => None end)
            ((fun i => Measure i (first + i)) <$> seq 0 k) = []) as ->
    by (generalize (seq 0 k); induction l; cbn; [done|auto]).
  rewrite app_nil_r. clear Hdata.
  induction targets as [|t targets IH]; cbn; [done|]. by rewrite IH.
Qed.

(** [k] positions below [k] cover all of them exactly when they are
    distinct. *)
Lemma covered_iff_NoDup (l : list nat) (k : nat) :
  length l = k -> Forall (fun p => (p < k)%nat) l ->
  (forall i, (i < k)%nat -> i ∈ l) <-> NoDup l.
Proof.
  intros Hlen Hall. split.
  - intros Hcover.
    assert (seq 0 k ⊆+ l) as Hsub.
    { apply NoDup_submseteq; [apply NoDup_seq|].
      intros i Hi. apply elem_of_seq in Hi. apply Hcover. lia. }
    apply submseteq_length_Permutation in Hsub; [|rewrite length_seq; lia].
    rewrite <- Hsub. apply NoDup_seq.
  - intros Hnd i Hi. by apply (positions_covered l k).
Qed.

End Flipped.

(** X6: when [flip_circuit] returns, every qubit of the register gets an X
    exactly when the positions the elements index are distinct; for
    elements that are not negative this is when the elements themselves
    are distinct.  A repeated position gets two X gates, and then some
    qubit gets none. *)
Theorem X6_every_qubit_flipped_iff_distinct
    (qubits : list Z) qc (mapping : gmap nat Z) :
  QbFlip.flip_circuit qubits = Return (qc, mapping) ->
  let k := length qubits in
  let all_flipped := forall i, (i < k)%nat -> i ∈ Qiskit.x_targets qc in
  Forall2 (fun q t => Py.index k q = Some t) qubits (Qiskit.x_targets qc) /\
  (all_flipped <-> NoDup (Qiskit.x_targets qc)) /\
  (Forall (fun q => 0 <= q) qubits -> (all_flipped <-> NoDup qubits)).
Proof.
  intros Hrun k all_flipped. subst all_flipped.
  destruct (flip_circuit_shape qubits qc mapping Hrun)
    as (_ & _ & targets & Hidx & Hdata & _). fold k in Hidx, Hdata.
  rewrite (x_targets_flip_data qc targets k 0%nat Hdata) in *.
  assert (length targets = k) as Hlen
    by (symmetry; by eapply Forall2_length).
  clearbody k. clear Hrun Hdata.
  assert (Forall (fun t => (t < k)%nat) targets) as Hbelow.
  { clear -Hidx. induction Hidx as [|q t qs ts Hq _ IH]; [done|].
    apply Forall_cons. split; [|done]. by apply index_Some in Hq as [? _]. }
  split; [done|]. split; [by apply covered_iff_NoDup|].
  intros Hpos. rewrite (covered_iff_NoDup targets k Hlen Hbelow).
  assert (targets = Z.to_nat <$> qubits) as ->.
  { clear -Hidx Hpos. induction Hidx as [|q t qs ts Hq _ IH]; [done|].
    apply Forall_cons in Hpos as [Hq0 Hpos]. cbn. f_equal; [|by apply IH].
    unfold Py.index in Hq.
    destruct ((0 <=? q) && (q <? Z.of_nat k)) eqn:Hin;
      [by injection Hq|].
    destruct ((- Z.of_nat k <=? q) && (q <? 0)) eqn:Hneg; [|done].
    apply andb_true_iff in Hneg as [_ Hneg]. apply Z.ltb_lt in Hneg. lia. }
  split.
  - apply NoDup_fmap_1.
  - intros Hnd. apply NoDup_fmap_2_strong; [|done].
    intros p q Hp Hq Heq. rewrite Forall_forall in Hpos.
    pose proof (Hpos p Hp). pose proof (Hpos q Hq). lia.
Qed.

Lemma X6_aliased_positions_witness :
  exists qc mapping,
    QbFlip.flip_circuit [0; -2] = Return (qc, mapping) /\
    NoDup [0; -2] /\
    ~ (forall i, (i < 2)%nat -> i ∈ Qiskit.x_targets qc).
Proof.
  destruct (QbFlip.flip_circuit [0; -2]) as [[qc mapping]|e] eqn:Hrun;
    [|vm_compute in Hrun; discriminate].
  destruct (X6_every_qubit_flipped_iff_distinct _ _ _ Hrun)
    as (Hidx & Hiff & _).
  exists qc, mapping. split; [done|]. split.
  - apply (bool_decide_unpack (NoDup [0; -2])). vm_compute. exact I.
  - intros Hall. apply Hiff in Hall.
    apply Forall2_cons_inv_l in Hidx as (t0 & ts0 & H0 & Hidx & Heq).
    apply Forall2_cons_inv_l in Hidx as (t1 & ts1 & H1 & Hidx & ->).
    apply Forall2_nil_inv_l in Hidx as ->.
    vm_compute in H0, H1. injection H0 as <-; injection H1 as <-.
    rewrite Heq in Hall. apply NoDup_cons in Hall as [Hin _].
    apply Hin. by left.
Defined.

(** ** More on the workflow of [qb_flip.py] *)

Section WorkflowMore.
Import Qiskit SDK QbFlip.
Context {World : Type} `{!Server World}.
Variable execute :
  QuantumCircuit -> Backend -> Z -> option (gmap nat Z) ->
  World -> result Job * World.

(** One turn with and without [verbose]: the same outcome, the same
    world, the same job, the same score; [verbose] only adds lines. *)
Lemma flip_qubits_job_verbose qubits backend shots i circuit mapping w :
  let quiet := flip_qubits_job execute qubits backend shots false i
                 circuit mapping w in
  let loud := flip_qubits_job execute qubits backend shots true i
                circuit mapping w in
  quiet.1 = loud.1 /\ quiet.2 `sublist_of` loud.2 /\
  executions quiet.2 = executions loud.2 /\
  reports quiet.2 = reports loud.2.
Proof.
  unfold flip_qubits_job, call, when, print, lift, mbind, play_mbind,
    play_bind.
  destruct backend, qubits; cbn;
    repeat match goal with
      | |- context [execute ?c ?b ?n ?m ?w0] =>
          destruct (execute c b n m w0) as [[job|e] w1] eqn:Hexec; cbn
      | |- context [job_result ?j] =>
          destruct (job_result j) as [res|e] eqn:Hres; cbn
      | |- context [calculate_success_probability ?c ?n ?d] =>
          destruct (calculate_success_probability c n d)
            as [p|e] eqn:Hscore; cbn
      | |- context [Py.getitem ?l ?k] =>
          destruct (Py.getitem l k) as [first|e] eqn:Hfirst; cbn
      end;
    (split; [reflexivity|]; split; [|split; reflexivity]);
    repeat first [ apply sublist_nil_l
                 | apply sublist_skip
                 | apply sublist_cons ].
Qed.

Lemma flip_qubits_jobs_verbose qubits backend shots pairs : forall i w,
  let quiet := flip_qubits_jobs execute qubits backend shots false i
                 pairs w in
  let loud := flip_qubits_jobs execute qubits backend shots true i
                pairs w in
  quiet.1 = loud.1 /\ quiet.2 `sublist_of` loud.2 /\
  executions quiet.2 = executions loud.2 /\
  reports quiet.2 = reports loud.2.
Proof.
  induction pairs as [|[circuit mapping] pairs IH]; intros i w.
  - cbn. by repeat split.
  - cbn zeta. rewrite !flip_qubits_jobs_cons.
    pose proof (flip_qubits_job_verbose qubits backend shots i circuit
                  mapping w) as Hturn. cbn zeta in Hturn.
    destruct (flip_qubits_job _ _ _ _ false _ _ _ _) as [[r1 w1] t1].
    destruct (flip_qubits_job _ _ _ _ true _ _ _ _) as [[r1' w1'] t1'].
    cbn [fst snd] in Hturn. destruct Hturn as ([= <- <-] & Hsub & Hex & Hrep).
    destruct r1 as [[]|e]; [|done].
    specialize (IH (S i) w1). cbn zeta in IH.
    destruct (flip_qubits_jobs _ _ _ _ false _ _ _) as [[r2 w2] t2].
    destruct (flip_qubits_jobs _ _ _ _ true _ _ _) as [[r2' w2'] t2'].
    cbn [fst snd] in IH |- *.
    destruct IH as ([= <- <-] & Hsub2 & Hex2 & Hrep2).
    unfold executions, reports in *. rewrite !omap_app, Hex, Hex2, Hrep, Hrep2.
    split; [done|]. split; [by apply sublist_app|done].
Qed.

Lemma flip_qubits_circuits_returns qubits :
  exists pairs, flip_qubits_circuits qubits = Return pairs.
Proof.
  destruct qubits as [requested|].
  - eexists. apply flip_qubits_circuits_some.
  - eexists. vm_compute. reflexivity.
Qed.

Lemma falsy_spec (v : option string) :
  falsy v = true <-> v = None \/ v = Some "".
Proof.
  destruct v as [s|]; cbn.
  - rewrite String.eqb_eq. split; [by intros ->; right|by intros [|[= ->]]].
  - split; [by left|done].
Qed.

(** The scoring loop never asks for a backend. *)
Lemma flip_qubits_job_connections qubits backend shots verbose i circuit
    mapping w :
  connections
    (flip_qubits_job execute qubits backend shots verbose i circuit
       mapping w).2 = [].
Proof.
  unfold flip_qubits_job, call, when, print, lift, mbind, play_mbind,
    play_bind.
  destruct verbose, backend, qubits; cbn;
    repeat match goal with
      | |- context [execute ?c ?b ?n ?m ?w0] =>
          destruct (execute c b n m w0) as [[job|e] w1] eqn:Hexec; cbn
      | |- context [job_result ?j] =>
          destruct (job_result j) as [res|e] eqn:Hres; cbn
      | |- context [calculate_success_probability ?c ?n ?d] =>
          destruct (calculate_success_probability c n d)
            as [p|e] eqn:Hscore; cbn
      | |- context [Py.getitem ?l ?k] =>
          destruct (Py.getitem l k) as [first|e] eqn:Hfirst; cbn
      end;
    reflexivity.
Qed.

Lemma flip_qubits_jobs_connections qubits backend shots verbose pairs :
  forall i w,
    connections
      (flip_qubits_jobs execute qubits backend shots verbose i pairs w).2
    = [].
Proof.
  induction pairs as [|[circuit mapping] pairs IH]; intros i w; [done|].
  rewrite flip_qubits_jobs_cons.
  pose proof (flip_qubits_job_connections qubits backend shots verbose i
                circuit mapping w) as Hturn.
  destruct (flip_qubits_job _ _ _ _ _ _ _ _ _) as [[r1 w1] t1].
  cbn [snd] in Hturn. destruct r1 as [[]|e]; [|done].
  specialize (IH (S i) w1).
  destruct (flip_qubits_jobs _ _ _ _ _ _ _ _) as [[r2 w2] t2].
  cbn [snd] in IH |- *. unfold connections in *.
  by rewrite omap_app, Hturn, IH.
Qed.

(** Every job of the loop goes to the backend the loop was given. *)
Lemma flip_qubits_jobs_backend qubits backend shots verbose pairs i w :
  Forall (fun job => job.1.1.2 = backend)
    (executions
       (flip_qubits_jobs execute qubits backend shots verbose i pairs w).2).
Proof.
  destruct (flip_qubits_jobs _ _ _ _ _ _ _ _) as [[r w1] t] eqn:Hrun.
  apply flip_qubits_jobs_spec in Hrun as (_ & [rest Hpre] & _).
  assert (Forall (fun job => job.1.1.2 = backend)
            (job_of backend shots <$> pairs)) as Hall.
  { apply Forall_fmap, Forall_true. done. }
  rewrite Hpre in Hall. by apply Forall_app in Hall as [Hall _].
Qed.

(** [first_quantum_job.py], step by step. *)
Lemma script_unfold environ (w : World) :
  FirstQuantumJob.script execute environ w =
  if falsy (environ !! "HELMI_CORTEX_URL") then
    (Raise (ValueError "Environment variable HELMI_CORTEX_URL is not set"),
     w, [Getenv "HELMI_CORTEX_URL"])
  else
    let url := default "" (environ !! "HELMI_CORTEX_URL") in
    let link := connect url w in
    match link.1 with
    | Raise e =>
        (Raise e, link.2, [Getenv "HELMI_CORTEX_URL"; Connect url (Raise e)])
    | Return _ =>
        let answer := execute bell_pair (IQMBackend url) 1000 None link.2 in
        let t := [Getenv "HELMI_CORTEX_URL"; Connect url link.1;
                  Execute bell_pair (IQMBackend url) 1000 None answer.1] in
        match job ← answer.1; res ← job_result job; Return (job, res) with
        | Return (job, res) =>
            (Return tt, answer.2,
             t ++ [Output (JobId (job_id job));
                   Output (CalibrationSetId (calibration_set_id res));
                   Output (Counts (get_counts res))])
        | Raise e => (Raise e, answer.2, t)
        end
    end.
Proof.
  unfold FirstQuantumJob.script, mbind, play_mbind, play_bind, getenv, call,
    lift, print, raise, get_backend.
  change (reg_getitem (QuantumRegister 2 "QB") 0) with (@Return nat 0%nat).
  change (reg_getitem (QuantumRegister 2 "QB") 1) with (@Return nat 1%nat).
  cbn.
  change (measure_all
            (cx (h (new_circuit [QuantumRegister 2 "QB"] []
                      (Some "Bell pair circuit")) 0) 0 1))
    with bell_pair.
  destruct (falsy (environ !! "HELMI_CORTEX_URL")); cbn; [done|].
  destruct (connect _ w) as [[[]|e] w0]; cbn; [|done].
  destruct (execute bell_pair _ 1000 None w0) as [[job|e] w1]; cbn; [|done].
  destruct (job_result job) as [res|e]; cbn; done.
Qed.

(** X7: with ['helmi'], the endpoint is read once from the environment,
    whatever happens next; the run stops with the [ValueError] before any
    job, and before any server is asked, when [HELMI_CORTEX_URL] is
    missing or is the empty string (the test is [if not HELMI_CORTEX_URL]),
    and [first_quantum_job.py] stops in the same way.  Any other value,
    checked in no way, is the address whose server is asked for the
    backend, once: the run does not stop with that [ValueError] then,
    every job it submits goes to the machine of that address, and when the
    server's answer is an error the run, like [first_quantum_job.py], ends
    with this error before any job. *)
Theorem X7_endpoint_missing_or_empty environ qubits shots verbose
    (w : World) :
  let unset :=
    environ !! "HELMI_CORTEX_URL" = None \/
    environ !! "HELMI_CORTEX_URL" = Some "" in
  let stopped : result unit * World * list event :=
    (Raise (ValueError "Environment variable HELMI_CORTEX_URL is not set"),
     w, [Getenv "HELMI_CORTEX_URL"]) in
  let run := flip_qubits execute environ qubits "helmi" shots verbose w in
  env_reads run.2 = ["HELMI_CORTEX_URL"] /\
  (unset -> run = stopped /\
            FirstQuantumJob.script execute environ w = stopped) /\
  (forall url,
     environ !! "HELMI_CORTEX_URL" = Some url -> url <> "" ->
     let link := connect url w in
     flip_qubits_backend environ "helmi" w
       = (_ ← link.1; Return (IQMBackend url), link.2,
          [Getenv "HELMI_CORTEX_URL"; Connect url link.1]) /\
     run <> stopped /\
     connections run.2 = [url] /\
     Forall (fun job => job.1.1.2 = IQMBackend url) (executions run.2) /\
     forall e,
       link.1 = Raise e ->
       let refused : result unit * World * list event :=
         (Raise e, link.2,
          [Getenv "HELMI_CORTEX_URL"; Connect url (Raise e)]) in
       run = refused /\
       FirstQuantumJob.script execute environ w = refused).
Proof.
  intros unset stopped run. subst run.
  rewrite flip_qubits_unfold, script_unfold, flip_qubits_backend_spec.
  cbn [String.eqb Ascii.eqb Bool.eqb].
  pose proof (falsy_spec (environ !! "HELMI_CORTEX_URL")) as Hfalsy.
  destruct (falsy (environ !! "HELMI_CORTEX_URL")) eqn:Hf.
  - split; [done|]. split; [done|].
    intros url Hurl Hne. exfalso.
    destruct (proj1 Hfalsy eq_refl) as [Hnone|Hempty]; congruence.
  - assert (~ unset) as Hset by (intros H; apply Hfalsy in H; done).
    cbv zeta.
    destruct (connect (default "" (environ !! "HELMI_CORTEX_URL")) w)
      as [[[]|e] w0] eqn:Hlink; cbn [fst snd mbind result_bind].
    + destruct (flip_qubits_circuits_returns qubits) as [pairs ->].
      pose proof (flip_qubits_jobs_connections qubits
                    (IQMBackend (default "" (environ !! "HELMI_CORTEX_URL")))
                    shots verbose pairs 0%nat w0) as Hconn.
      pose proof (flip_qubits_jobs_backend qubits
                    (IQMBackend (default "" (environ !! "HELMI_CORTEX_URL")))
                    shots verbose pairs 0%nat w0) as Hall.
      destruct (flip_qubits_jobs _ _ _ _ _ _ _ _) as [[r w1] t1] eqn:Hrun.
      apply flip_qubits_jobs_spec in Hrun as (Henv & _).
      cbn [snd] in *. unfold env_reads, connections, executions in *.
      rewrite !omap_app, Henv.
      split; [done|]. split; [done|].
      intros url Hurl Hne. rewrite Hurl in *.
      cbn [default from_option id] in *. cbv zeta.
      rewrite Hlink, Hconn. cbn [fst snd mbind result_bind].
      split; [done|]. split; [by intros [= _ _ Ht]|].
      split; [done|]. split; [exact Hall|done].
    + split; [done|]. split; [done|].
      intros url Hurl Hne. rewrite Hurl in *.
      cbn [default from_option id] in *. cbv zeta.
      rewrite Hlink. cbn [fst snd mbind result_bind].
      split; [done|]. split; [done|]. split; [done|].
      split; [by constructor|]. by intros e' [= <-].
Qed.

(** X8: [verbose] only adds output.  With and without it a run ends the
    same way in the same state of the world, submits the same jobs and
    prints the same scores, and what the quiet run does is what the
    verbose run does with lines left out. *)
Theorem X8_verbose_only_adds_output environ qubits backend shots
    (w : World) :
  let quiet := flip_qubits execute environ qubits backend shots false w in
  let loud := flip_qubits execute environ qubits backend shots true w in
  quiet.1 = loud.1 /\ quiet.2 `sublist_of` loud.2 /\
  executions quiet.2 = executions loud.2 /\
  reports quiet.2 = reports loud.2.
Proof.
  cbn zeta. rewrite !flip_qubits_unfold.
  destruct (flip_qubits_backend environ backend w) as [[[b|e] w0] t0];
    [|done].
  destruct (flip_qubits_circuits qubits) as [pairs|e]; [|done].
  pose proof (flip_qubits_jobs_verbose qubits b shots pairs 0%nat w0) as H.
  cbn zeta in H.
  destruct (flip_qubits_jobs _ _ _ _ false _ _ _) as [[r1 w1] t1].
  destruct (flip_qubits_jobs _ _ _ _ true _ _ _) as [[r2 w2] t2].
  cbn [fst snd] in *. destruct H as ([= <- <-] & Hsub & Hex & Hrep).
  unfold executions, reports in *. rewrite !omap_app, Hex, Hrep.
  split; [done|]. split; [by apply sublist_app|done].
Qed.

(** One turn with [shots = 0] never returns and prints no score: when the
    job itself went through, the division raises. *)
Lemma flip_qubits_job_zero_shots qubits backend verbose i circuit mapping
    w r w' t :
  flip_qubits_job execute qubits backend 0 verbose i circuit mapping w
    = (r, w', t) ->
  reports t = [] /\
  exists e, r = Raise e /\
    job_scores (desired_state qubits) t = [Raise e] /\
    executions t = [(circuit, backend, 0, Some mapping)].
Proof.
  unfold flip_qubits_job, call, when, print, lift, mbind, play_mbind,
    play_bind.
  destruct verbose, backend, qubits; cbn;
    repeat match goal with
      | |- context [execute ?c ?b ?n ?m ?w0] =>
          destruct (execute c b n m w0) as [[job|e] w1] eqn:Hexec; cbn
      | |- context [job_result ?j] =>
          destruct (job_result j) as [res|e] eqn:Hres; cbn
      end;
    intros [= <- <- <-]; cbn; unfold score_of_reply; cbn;
    rewrite ?Hres; cbn; eauto.
Qed.

(** X9: [shots = 0] is not checked before the jobs start.  A run with
    zero shots submits the first job (at most one), prints no score, and
    unless that job fails by itself ends with [ZeroDivisionError]: the
    error of the run is what scoring the job with zero shots gives.  It
    returns only when there was nothing to run. *)
Theorem X9_zero_shots_run environ qubits backend verbose (w : World) :
  let run := flip_qubits execute environ qubits backend 0 verbose w in
  reports run.2 = [] /\
  (length (executions run.2) <= 1)%nat /\
  (returns run.1.1 -> qubits = Some []) /\
  (forall e, run.1.1 = Raise e -> executions run.2 <> [] ->
             job_scores (desired_state qubits) run.2 = [Raise e]) /\
  (forall reply,
     score_of_reply (desired_state qubits) 0 reply
       = Raise ZeroDivisionError \/
     exists e, (job ← reply; res ← job_result job; Return tt) = Raise e).
Proof.
  cbn zeta. rewrite flip_qubits_unfold.
  destruct (flip_qubits_backend environ backend w) as [[[b|e] w0] t0]
    eqn:Hb; apply backend_trace in Hb as (Hex0 & Hrep0 & Hsc0).
  2: { cbn [fst snd]. rewrite Hrep0, Hex0. split; [done|]. split; [cbn; lia|].
       split; [by intros [? ?]|]. split; [done|].
       intros [job|e']; [destruct (job_result job) eqn:?|]; cbn;
         unfold score_of_reply; cbn; rewrite ?Heqr; cbn; eauto. }
  assert (forall reply,
     score_of_reply (desired_state qubits) 0 reply
       = Raise ZeroDivisionError \/
     exists e, (job ← reply; res ← job_result job; Return tt) = Raise e)
    as Hreply.
  { intros [job|e']; [destruct (job_result job) eqn:Hres|]; cbn;
      unfold score_of_reply; cbn; rewrite ?Hres; cbn; eauto. }
  destruct qubits as [[|qb requested]|].
  - unfold executions, reports, job_scores in *.
    cbn. rewrite app_nil_r, Hrep0, Hex0. split; [done|]. split; [cbn; lia|].
    split; [done|]. split; [done|exact Hreply].
  - rewrite flip_qubits_circuits_some. cbn [fmap list_fmap].
    change (one_qubit_pair qb)
      with (one_qubit_flip, ({[ 0%nat := qb ]} : gmap nat Z)).
    rewrite flip_qubits_jobs_cons.
    destruct (flip_qubits_job _ _ _ _ _ _ _ _ _) as [[r1 w1] t1] eqn:Hturn.
    apply flip_qubits_job_zero_shots in Hturn
      as (Hrep & e & -> & Hsc & Hex).
    cbv beta iota zeta. cbn [fst snd].
    unfold executions, reports, job_scores in *.
    rewrite !omap_app, Hrep0, Hex0, Hsc0, Hrep, Hex, Hsc. cbn [app length].
    split; [done|]. split; [lia|]. split; [by intros [? ?]|].
    split; [by intros e' [= ->] _|exact Hreply].
  - destruct (flip_circuit [0; 1; 2; 3; 4]) as [[circuit mapping]|e] eqn:Hc;
      [|vm_compute in Hc; discriminate].
    unfold flip_qubits_circuits. rewrite Hc. cbn [mbind result_bind app].
    rewrite flip_qubits_jobs_cons.
    destruct (flip_qubits_job _ _ _ _ _ _ _ _ _) as [[r1 w1] t1] eqn:Hturn.
    apply flip_qubits_job_zero_shots in Hturn
      as (Hrep & e & -> & Hsc & Hex).
    cbv beta iota zeta. cbn [fst snd].
    unfold executions, reports, job_scores in *.
    rewrite !omap_app, Hrep0, Hex0, Hsc0, Hrep, Hex, Hsc. cbn [app length].
    split; [done|]. split; [lia|]. split; [by intros [? ?]|].
    split; [by intros e' [= ->] _|exact Hreply].
Qed.

(** X10: with an endpoint, [first_quantum_job.py] reads the environment
    once, asks the server of the endpoint for its backend once, and
    submits at most one job: the Bell pair circuit (H on qubit 0, CX from
    0 to 1, every qubit measured) with 1000 shots and no layout, on the
    machine of the endpoint.  When the server's answer is an error the
    script ends with it and no job is sent.  Otherwise the job is sent;
    when it fails, in [execute] or in [job.result()], the script ends with
    the job's error and has printed nothing; and a run that reaches the end
    of the script has printed the job id, the calibration set and the
    counts of that job, in this order. *)
Theorem X10_first_quantum_job environ url (w : World) :
  environ !! "HELMI_CORTEX_URL" = Some url -> url <> "" ->
  let run := FirstQuantumJob.script execute environ w in
  let link := connect url w in
  let answer := execute bell_pair (IQMBackend url) 1000 None link.2 in
  env_reads run.2 = ["HELMI_CORTEX_URL"] /\
  connections run.2 = [url] /\
  executions run.2 `prefix_of` [(bell_pair, IQMBackend url, 1000, None)] /\
  (forall e,
     link.1 = Raise e ->
     run = (Raise e, link.2,
            [Getenv "HELMI_CORTEX_URL"; Connect url (Raise e)])) /\
  (returns link.1 ->
   executions run.2 = [(bell_pair, IQMBackend url, 1000, None)] /\
   run.1.2 = answer.2 /\
   (forall e,
      (job ← answer.1; res ← job_result job; Return tt) = Raise e ->
      run.1.1 = Raise e /\ printed run.2 = []) /\
   (returns run.1.1 ->
    exists job res,
      answer.1 = Return job /\ job_result job = Return res /\
      printed run.2 = [JobId (job_id job);
                       CalibrationSetId (calibration_set_id res);
                       Counts (get_counts res)])).
Proof.
  intros Hurl Hne run link answer. subst run answer link.
  rewrite script_unfold, Hurl. cbn [default from_option id falsy].
  replace (String.eqb url "") with false
    by (symmetry; by apply String.eqb_neq).
  cbv zeta.
  destruct (connect url w) as [[[]|e] w0]; cbn [fst snd].
  - destruct (execute bell_pair (IQMBackend url) 1000 None w0)
      as [[job|e] w1]; cbn [fst snd mbind result_bind];
      [destruct (job_result job) as [res|e] eqn:Hres;
       cbn [mbind result_bind]|].
    + split; [done|]. split; [done|]. split; [done|]. split; [done|].
      intros _. split; [done|]. split; [done|]. split; [done|].
      intros _. by exists job, res.
    + split; [done|]. split; [done|]. split; [done|]. split; [done|].
      intros _. split; [done|]. split; [done|].
      split; [by intros e' [= <-]|]. by intros [? ?].
    + split; [done|]. split; [done|]. split; [done|]. split; [done|].
      intros _. split; [done|]. split; [done|].
      split; [by intros e' [= <-]|]. by intros [? ?].
  - split; [done|]. split; [done|]. split; [apply prefix_nil|].
    split; [by intros e' [= <-]|]. by intros [? ?].
Qed.

End WorkflowMore.

(** ** The workflow on the bench backends, continued *)

Lemma X7_endpoint_empty_witness :
  flip_qubits Bench.all_flipped {[ "HELMI_CORTEX_URL" := "" ]} None "helmi"
    1000 false 0%nat
  = (Raise (ValueError "Environment variable HELMI_CORTEX_URL is not set"),
     0%nat, [Getenv "HELMI_CORTEX_URL"]) /\
  flip_qubits Bench.all_flipped
    {[ "HELMI_CORTEX_URL" := Bench.unreachable ]} None "helmi" 1000 false
    0%nat
  = (Raise (SDKError "ConnectionError"), 0%nat,
     [Getenv "HELMI_CORTEX_URL";
      Connect Bench.unreachable (Raise (SDKError "ConnectionError"))]).
Proof.
  split.
  - apply (proj1 (proj2 (X7_endpoint_missing_or_empty Bench.all_flipped
                           {[ "HELMI_CORTEX_URL" := "" ]} None 1000 false
                           0%nat))).
    right. apply lookup_singleton_eq.
  - destruct (X7_endpoint_missing_or_empty Bench.all_flipped
                {[ "HELMI_CORTEX_URL" := Bench.unreachable ]} None 1000
                false 0%nat) as (_ & _ & Hset).
    destruct (Hset Bench.unreachable) as (_ & _ & _ & _ & Hrefused).
    + apply lookup_singleton_eq.
    + discriminate.
    + apply (Hrefused (SDKError "ConnectionError")). reflexivity.
Defined.

Lemma X9_zero_shots_witness :
  let run := flip_qubits Bench.all_flipped ∅ (Some [0; 1; 2]) "simulator" 0
               false 0%nat in
  run.1.1 = Raise ZeroDivisionError /\
  job_scores "1" run.2 = [Raise ZeroDivisionError] /\
  reports run.2 = [].
Proof.
  intros run. split; [vm_compute; reflexivity|]. split.
  - apply (proj1 (proj2 (proj2 (proj2
      (X9_zero_shots_run Bench.all_flipped ∅ (Some [0; 1; 2]) "simulator"
         false 0%nat))))).
    + vm_compute. reflexivity.
    + vm_compute. discriminate.
  - apply (X9_zero_shots_run Bench.all_flipped ∅ (Some [0; 1; 2])
             "simulator" false 0%nat).
Defined.

Lemma X10_first_quantum_job_witness :
  let run := FirstQuantumJob.script Bench.helmi
               {[ "HELMI_CORTEX_URL" := "https://helmi" ]} 0%nat in
  run.1.1 = Return tt /\
  connections run.2 = ["https://helmi"] /\
  executions run.2 = [(bell_pair, IQMBackend "https://helmi", 1000, None)] /\
  printed run.2 = [JobId "job"; CalibrationSetId "calibration";
                   Counts {[ "11" := 1000 ]}].
Proof.
  intros run.
  assert (run.1.1 = Return tt) as Hdone by (vm_compute; reflexivity).
  destruct (X10_first_quantum_job Bench.helmi
              {[ "HELMI_CORTEX_URL" := "https://helmi" ]} "https://helmi"
              0%nat)
    as (_ & Hconn & _ & _ & Hsent).
  - apply lookup_singleton_eq.
  - discriminate.
  - destruct Hsent as (Hexec & _ & _ & Hend); [by exists tt|].
    destruct Hend as (job & res & Hjob & Hres & Hout); [by exists tt|].
    split; [exact Hdone|]. split; [exact Hconn|]. split; [exact Hexec|].
    fold run in Hout. rewrite Hout.
    vm_compute in Hjob. injection Hjob as <-.
    vm_compute in Hres. injection Hres as <-.
    reflexivity.
Defined.

(** ** [main] of [qb_flip_simple.py] *)

Section SimpleMain.
Import Run.
Context {World : Type} `{!Server World}.
Variable execute :
  QuantumCircuit -> Backend -> Z -> option (gmap nat Z) ->
  World -> result Job * World.

Lemma getitem_head {A} (x : A) (l : list A) : Py.getitem (x :: l) 0 = Return x.
Proof.
  unfold Py.getitem, Py.index. cbn [length].
  replace (0 <? Z.of_nat (S (length l))) with true
    by (symmetry; apply Z.ltb_lt; lia).
  reflexivity.
Qed.

Lemma elem_of_events (ev : event) (t : list step) :
  ev ∈ events t <-> Sdk ev ∈ t.
Proof.
  unfold events. rewrite list_elem_of_omap. split.
  - intros (s & Hs & Heq). destruct s; try discriminate.
    by injection Heq as ->.
  - intros Hin. by exists (Sdk ev).
Qed.

Lemma elem_of_report_lines (s : step) (t : list step) :
  s ∈ report_lines t <-> s ∈ t /\ forall ev, s <> Sdk ev.
Proof.
  unfold report_lines. rewrite list_elem_of_omap. split.
  - intros (s' & Hs & Heq). destruct s'; try discriminate;
      injection Heq as <-; by split.
  - intros [Hin Hne]. exists s. split; [done|].
    destruct s; [by destruct (Hne ev)|done|done].
Qed.

(** One turn of the loop of [main]. *)
Lemma main_qubit_spec backend qb w o w' t :
  QbFlipSimple.main_qubit execute backend qb w = (o, w', t) ->
  exists reply,
    execute simple_one_qubit backend 1000 (Some {[ 0%nat := qb ]}) w
      = (reply, w') /\
    events t = [Execute simple_one_qubit backend 1000
                  (Some {[ 0%nat := qb ]}) reply] /\
    match o with
    | Done _ =>
        exists job res p,
          reply = Return job /\ job_result job = Return res /\
          placed_on qb res /\
          QbFlipSimple.calculate_success_probability (get_counts res) 1000 "1"
            = Return p /\
          report_lines t = [QubitReport (qb + 1) (get_counts res) p]
    | Failed f =>
        report_lines t = [] /\
        (f = AssertionError ->
         exists job res first rest,
           reply = Return job /\ job_result job = Return res /\
           qubit_mapping res = first :: rest /\
           first.2 <> "QB" +:+ str (qb + 1))
    end.
Proof.
  unfold QbFlipSimple.main_qubit.
  change (QbFlipSimple.single_flip_circuit qb)
    with (Return (simple_one_qubit, ({[ 0%nat := qb ]} : gmap nat Z))).
  unfold mbind, run_mbind, run_bind, of_result, of_play, call, assert,
    report.
  cbn beta iota zeta.
  destruct (execute simple_one_qubit backend 1000 (Some {[ 0%nat := qb ]}) w)
    as [[job|e] w1] eqn:Hexec; cbn -[QbFlipSimple.calculate_success_probability];
    [|intros [= <- <- <-]; eexists; by repeat split].
  destruct (job_result job) as [res|e] eqn:Hres; cbn -[QbFlipSimple.calculate_success_probability];
    [|intros [= <- <- <-]; eexists; by repeat split].
  destruct (qubit_mapping res) as [|first rest] eqn:Hmap;
    [cbn -[QbFlipSimple.calculate_success_probability]; intros [= <- <- <-]; eexists; by repeat split|].
  rewrite getitem_head. cbn -[QbFlipSimple.calculate_success_probability].
  destruct (String.eqb ("QB" +:+ str (qb + 1)) first.2) eqn:Hname; cbn -[QbFlipSimple.calculate_success_probability].
  - apply String.eqb_eq in Hname.
    destruct (QbFlipSimple.calculate_success_probability
                (get_counts res) 1000 "1") as [p|e] eqn:Hscore; cbn -[QbFlipSimple.calculate_success_probability];
      intros [= <- <- <-]; eexists; (split; [done|]); (split; [done|]).
    + exists job, res, p. repeat split; try done. by exists first, rest.
    + by split.
  - apply String.eqb_neq in Hname.
    intros [= <- <- <-]. eexists. split; [done|]. split; [done|].
    split; [done|]. intros _. exists job, res, first, rest.
    by repeat split.
Qed.

Lemma vouched_app t1 t2 : vouched t1 -> vouched t2 -> vouched (t1 ++ t2).
Proof.
  intros H1 H2 n counts p Hin. apply elem_of_app in Hin as [Hin|Hin].
  - destruct (H1 n counts p Hin) as (b & job & res & Hjob & Hrest).
    exists b, job, res. split; [|done]. apply elem_of_app. by left.
  - destruct (H2 n counts p Hin) as (b & job & res & Hjob & Hrest).
    exists b, job, res. split; [|done]. apply elem_of_app. by right.
Qed.

Lemma vouched_sdk (evs : list event) : vouched (Sdk <$> evs).
Proof.
  intros n counts p Hin. apply list_elem_of_fmap in Hin as (ev & Heq & _).
  discriminate.
Qed.

Lemma main_qubit_vouched backend qb w o w' t :
  QbFlipSimple.main_qubit execute backend qb w = (o, w', t) -> vouched t.
Proof.
  intros Hrun. apply main_qubit_spec in Hrun as (reply & _ & Hev & Ho).
  intros n counts p Hin.
  assert (QubitReport n counts p ∈ report_lines t) as Hline
    by (apply elem_of_report_lines; by split).
  destruct o as [[]|f]; [|destruct Ho as [Hnone _]; rewrite Hnone in Hline;
                          by apply elem_of_nil in Hline].
  destruct Ho as (job & res & p' & -> & Hres & Hplaced & Hscore & Hlines).
  rewrite Hlines in Hline. apply list_elem_of_singleton in Hline.
  injection Hline as -> -> ->.
  replace (qb + 1 - 1) with qb by lia.
  exists backend, job, res. split; [|done].
  apply elem_of_events. rewrite Hev. by apply list_elem_of_singleton.
Qed.

(** The loop of [main] over the qubits [qbs]. *)
Lemma main_qubits_spec backend qbs : forall w o w' t,
  QbFlipSimple.main_qubits execute backend qbs w = (o, w', t) ->
  vouched t /\
  (forall counts p, AllReport counts p ∉ t) /\
  env_reads (events t) = [] /\
  exists done_qbs,
    done_qbs `prefix_of` qbs /\
    Forall2 (fun s qb => exists counts p, s = QubitReport (qb + 1) counts p)
            (report_lines t) done_qbs /\
    match o with
    | Done _ =>
        done_qbs = qbs /\
        executions (events t) = simple_job backend <$> qbs
    | Failed f =>
        exists qb reply,
          qb ∈ qbs /\
          executions (events t)
            = simple_job backend <$> (done_qbs ++ [qb]) /\
          (done_qbs ++ [qb]) `prefix_of` qbs /\
          Sdk (Execute simple_one_qubit backend 1000
                 (Some {[ 0%nat := qb ]}) reply) ∈ t /\
          (f = AssertionError ->
           exists job res first rest,
             reply = Return job /\ job_result job = Return res /\
             qubit_mapping res = first :: rest /\
             first.2 <> "QB" +:+ str (qb + 1))
    end.
Proof.
  induction qbs as [|qb qbs IH]; intros w o w' t.
  - cbn. intros [= <- <- <-]. split; [by intros ? ? ? ?%elem_of_nil|].
    split; [by intros ? ? ?%elem_of_nil|]. split; [done|].
    exists []. by repeat split.
  - cbn [QbFlipSimple.main_qubits]. unfold mbind, run_mbind, run_bind.
    destruct (QbFlipSimple.main_qubit execute backend qb w)
      as [[o1 w1] t1] eqn:Hturn.
    pose proof (main_qubit_vouched _ _ _ _ _ _ Hturn) as Hv1.
    apply main_qubit_spec in Hturn as (reply & Hexec & Hev & Ho).
    assert (forall counts p, AllReport counts p ∉ t1) as Hall1.
    { intros counts p Hin.
      assert (AllReport counts p ∈ report_lines t1) as Hline
        by (apply elem_of_report_lines; by split).
      destruct o1 as [[]|f].
      - destruct Ho as (? & ? & ? & _ & _ & _ & _ & Hl). rewrite Hl in Hline.
        by apply list_elem_of_singleton in Hline.
      - destruct Ho as [Hl _]. rewrite Hl in Hline.
        by apply elem_of_nil in Hline. }
    assert (Sdk (Execute simple_one_qubit backend 1000
                   (Some {[ 0%nat := qb ]}) reply) ∈ t1) as Hjob
      by (apply elem_of_events; rewrite Hev; by apply list_elem_of_singleton).
    destruct o1 as [[]|f].
    + destruct Ho as (job & res & p & -> & Hres & Hplaced & Hscore & Hlines).
      destruct (QbFlipSimple.main_qubits execute backend qbs w1)
        as [[o2 w2] t2] eqn:Hrest.
      apply IH in Hrest as (Hv2 & Hall2 & Henv2 & done_qbs & Hpre & Hrep & Ho2).
      intros [= <- <- <-].
      split; [by apply vouched_app|].
      split; [intros counts p' Hin; apply elem_of_app in Hin as [Hin|Hin];
              [by eapply Hall1|by eapply Hall2]|].
      unfold events, report_lines, env_reads, executions in *.
      rewrite !omap_app, Hev, Hlines, Henv2. split; [done|].
      exists (qb :: done_qbs). split; [by apply prefix_cons|].
      split; [apply Forall2_cons; split; [by eauto|done]|].
      destruct o2 as [[]|f2].
      * destruct Ho2 as [-> Hex2]. split; [done|]. cbn. by rewrite Hex2.
      * destruct Ho2 as (qb' & reply' & Hin & Hex2 & Hpre2 & Hjob2 & Hassert).
        exists qb', reply'. split; [by right|].
        split; [cbn; by rewrite Hex2|].
        split; [by apply prefix_cons|].
        split; [apply elem_of_app; by right|done].
    + destruct Ho as [Hlines Hassert].
      intros [= <- <- <-]. split; [done|]. split; [done|].
      unfold events, report_lines, env_reads, executions in *.
      rewrite Hev, Hlines. split; [done|].
      exists []. split; [apply prefix_nil|]. split; [done|].
      exists qb, reply. split; [by left|]. split; [done|].
      split; [apply prefix_cons, prefix_nil|]. split; [done|done].
Qed.

(** The job over all qubits at the end of [main]. *)
Lemma main_all_spec backend shots w o w' t :
  QbFlipSimple.main_all execute backend shots w = (o, w', t) ->
  exists circuit mapping reply,
    QbFlipSimple.flip_circuit [0; 1; 2; 3; 4] = Return (circuit, mapping) /\
    events t = [Execute circuit backend shots (Some mapping) reply] /\
    (forall n counts p, QubitReport n counts p ∉ t) /\
    match o with
    | Done _ =>
        exists job res p,
          reply = Return job /\ job_result job = Return res /\
          QbFlipSimple.calculate_success_probability
            (get_counts res) shots "11111" = Return p /\
          report_lines t = [AllReport (get_counts res) p]
    | Failed f => report_lines t = [] /\ f <> AssertionError
    end.
Proof.
  unfold QbFlipSimple.main_all.
  destruct (QbFlipSimple.flip_circuit [0; 1; 2; 3; 4])
    as [[circuit mapping]|e] eqn:Hc; [|vm_compute in Hc; discriminate].
  unfold mbind, run_mbind, run_bind, of_result, of_play, call, report.
  cbn beta iota zeta.
  destruct (execute circuit backend shots (Some mapping) w)
    as [[job|e] w1] eqn:Hexec;
    cbn -[QbFlipSimple.calculate_success_probability].
  2: { intros [= <- <- <-]. exists circuit, mapping, (Raise e).
       split; [done|]. split; [done|].
       split; [by intros n c p [= ]%list_elem_of_singleton|done]. }
  destruct (job_result job) as [res|e] eqn:Hres;
    cbn -[QbFlipSimple.calculate_success_probability].
  2: { intros [= <- <- <-]. exists circuit, mapping, (Return job).
       split; [done|]. split; [done|].
       split; [by intros n c p [= ]%list_elem_of_singleton|done]. }
  destruct (QbFlipSimple.calculate_success_probability
              (get_counts res) shots "11111") as [p|e] eqn:Hscore;
    cbn -[QbFlipSimple.calculate_success_probability];
    intros [= <- <- <-]; exists circuit, mapping, (Return job);
    (split; [done|]); (split; [done|]); split.
  - intros n c p' Hin. apply elem_of_cons in Hin as [[=]|Hin].
    by apply list_elem_of_singleton in Hin.
  - by exists job, res, p.
  - by intros n c p' [= ]%list_elem_of_singleton.
  - done.
Qed.

Lemma main_unfold environ w :
  QbFlipSimple.main execute environ w =
  if falsy (environ !! "HELMI_CORTEX_URL") then
    (Failed (Exception
               (ValueError "Environment variable HELMI_CORTEX_URL is not set")),
     w, [Sdk (Getenv "HELMI_CORTEX_URL")])
  else
    let url := default "" (environ !! "HELMI_CORTEX_URL") in
    let link := connect url w in
    match link.1 with
    | Raise e =>
        (Failed (Exception e), link.2,
         [Sdk (Getenv "HELMI_CORTEX_URL"); Sdk (Connect url (Raise e))])
    | Return _ =>
        let backend := IQMBackend url in
        match QbFlipSimple.main_qubits execute backend (range 5) link.2 with
        | (Done _, w1, t1) =>
            let '(o, w2, t2) :=
              QbFlipSimple.main_all execute backend 1000 w1 in
            (o, w2,
             Sdk (Getenv "HELMI_CORTEX_URL")
               :: Sdk (Connect url link.1)
               :: Sdk (Output (Text (nl +:+ "Flip one qubit at a time"
                                       +:+ nl)))
               :: t1
               ++ Sdk (Output (Text (nl +:+ "Flip all qubits at once"
                                       +:+ nl)))
               :: t2)
        | (Failed f, w1, t1) =>
            (Failed f, w1,
             Sdk (Getenv "HELMI_CORTEX_URL")
               :: Sdk (Connect url link.1)
               :: Sdk (Output (Text (nl +:+ "Flip one qubit at a time"
                                       +:+ nl)))
               :: t1)
        end
    end.
Proof.
  unfold QbFlipSimple.main, mbind, run_mbind, run_bind, of_play, of_result,
    getenv, print, mret, run_ret, of_result, get_backend.
  cbn beta iota zeta.
  destruct (falsy (environ !! "HELMI_CORTEX_URL")); [done|].
  cbn [fmap list_fmap app].
  destruct (connect _ w) as [[[]|e] w0];
    cbn [fst snd mbind result_bind fmap list_fmap app]; [|done].
  destruct (QbFlipSimple.main_qubits _ _ _ _) as [[[[]|f] w1] t1]; [|done].
  cbn [fmap list_fmap app].
  by destruct (QbFlipSimple.main_all _ _ _ _) as [[o2 w2] t2].
Qed.

(** X11: [main] of [qb_flip_simple.py] always runs on the machine of the
    endpoint.  It stops with the [ValueError], having only read the
    environment, exactly when [HELMI_CORTEX_URL] is missing or empty;
    nothing is submitted or printed then. *)
Theorem X11_simple_main_endpoint environ (w : World) :
  let unset :=
    environ !! "HELMI_CORTEX_URL" = None \/
    environ !! "HELMI_CORTEX_URL" = Some "" in
  let stopped : outcome unit * World * list step :=
    (Failed (Exception
               (ValueError "Environment variable HELMI_CORTEX_URL is not set")),
     w, [Sdk (Getenv "HELMI_CORTEX_URL")]) in
  (QbFlipSimple.main execute environ w = stopped <-> unset) /\
  executions (events stopped.2) = [] /\ report_lines stopped.2 = [].
Proof.
  intros unset stopped. split; [|done]. rewrite main_unfold.
  pose proof (falsy_spec (environ !! "HELMI_CORTEX_URL")) as Hfalsy.
  destruct (falsy (environ !! "HELMI_CORTEX_URL")).
  - split; [intros _; by apply Hfalsy|done].
  - split; [|intros H; by apply Hfalsy in H]. cbn zeta.
    destruct (connect _ w) as [[[]|e] w0]; cbn [fst snd]; [|by intros [=]].
    destruct (QbFlipSimple.main_qubits _ _ _ _) as [[[[]|f] w1] t1].
    + destruct (QbFlipSimple.main_all _ _ _ _) as [[o2 w2] t2].
      by intros [=].
    + by intros [=].
Qed.

(** X12: with an endpoint, the jobs of [main] are, in this order, the
    one-qubit circuit laid out on the physical qubits 0, 1, 2, 3, 4 and
    then the flip circuit over all five, each with 1000 shots on the
    machine of the endpoint; a run submits a first part of this list and
    stops at the first job that fails.  A run that returns has submitted
    all six and printed six lines: [QB1] to [QB5], then the line of
    the run over all qubits. *)
Theorem X12_simple_main_jobs environ url (w : World) :
  environ !! "HELMI_CORTEX_URL" = Some url -> url <> "" ->
  let run := QbFlipSimple.main execute environ w in
  exists circuit mapping,
    QbFlipSimple.flip_circuit [0; 1; 2; 3; 4] = Return (circuit, mapping) /\
    let six := (simple_job (IQMBackend url) <$> range 5)
                 ++ [(circuit, IQMBackend url, 1000, Some mapping)] in
    env_reads (events run.2) = ["HELMI_CORTEX_URL"] /\
    executions (events run.2) `prefix_of` six /\
    (run.1.1 = Done tt ->
     executions (events run.2) = six /\
     exists lines counts p,
       report_lines run.2 = lines ++ [AllReport counts p] /\
       Forall2 (fun s qb => exists counts p,
                             s = QubitReport (qb + 1) counts p)
               lines (range 5)).
Proof.
  intros Hurl Hne run. subst run. rewrite main_unfold.
  assert (falsy (environ !! "HELMI_CORTEX_URL") = false) as ->.
  { rewrite Hurl. cbn. by apply String.eqb_neq. }
  rewrite Hurl. cbn [default from_option id]. cbn zeta.
  destruct (QbFlipSimple.flip_circuit [0; 1; 2; 3; 4])
    as [[circuit mapping]|e] eqn:Hc; [|vm_compute in Hc; discriminate].
  exists circuit, mapping. split; [done|].
  destruct (connect url w) as [[[]|e] w0]; cbn [fst snd];
    [|split; [done|]; split; [apply prefix_nil|done]].
  destruct (QbFlipSimple.main_qubits _ _ _ _) as [[o1 w1] t1] eqn:Hloop.
  apply main_qubits_spec in Hloop
    as (_ & _ & Henv1 & done_qbs & Hpre & Hrep & Ho1).
  destruct o1 as [[]|f].
  - destruct Ho1 as [-> Hex1].
    destruct (QbFlipSimple.main_all _ _ _ _) as [[o2 w2] t2] eqn:Hall.
    apply main_all_spec in Hall
      as (circuit' & mapping' & reply & Hc' & Hev2 & _ & Ho2).
    rewrite Hc in Hc'. injection Hc' as <- <-.
    cbn [fst snd]. unfold events, report_lines, env_reads, executions in *.
    cbn [omap list_omap]. rewrite !omap_app. cbn [omap list_omap].
    rewrite Hev2, Henv1, Hex1. cbn [omap list_omap app].
    split; [done|]. split; [done|].
    intros [= ->]. split; [done|].
    destruct Ho2 as (job & res & p & _ & _ & _ & Hlines).
    rewrite Hlines. by eexists _, _, _.
  - destruct Ho1 as (qb & reply & Hin & Hex1 & Hpre1 & _).
    cbn [fst snd]. unfold events, report_lines, env_reads, executions in *.
    cbn [omap list_omap]. rewrite Henv1, Hex1.
    split; [done|]. split; [|done].
    apply prefix_app_r. destruct Hpre1 as [k ->].
    exists (simple_job (IQMBackend url) <$> k). by rewrite fmap_app.
Qed.

(** X13: [main] prints a line [QB<n> -> ...] only for a job whose result
    names [QB<n>] as the physical qubit of its first qubit: every such line
    in the trace comes with its one-qubit job, laid out on qubit [n - 1],
    with that placement, those counts and that score against ["1"].  When
    the run ends with [AssertionError], some one-qubit job was placed
    elsewhere: it has a result whose first physical name is not the one
    asked for, and the run over all qubits is never reported. *)
Theorem X13_simple_main_assert environ (w : World) :
  let run := QbFlipSimple.main execute environ w in
  vouched run.2 /\
  (run.1.1 = Failed AssertionError ->
   (forall counts p, AllReport counts p ∉ run.2) /\
   exists backend qb job res first rest,
     Sdk (Execute simple_one_qubit backend 1000
            (Some {[ 0%nat := qb ]}) (Return job)) ∈ run.2 /\
     job_result job = Return res /\
     qubit_mapping res = first :: rest /\
     first.2 <> "QB" +:+ str (qb + 1)).
Proof.
  cbn zeta. rewrite main_unfold.
  destruct (falsy (environ !! "HELMI_CORTEX_URL")).
  { split; [apply (vouched_sdk [Getenv "HELMI_CORTEX_URL"])|done]. }
  cbn zeta. set (url := default "" _). set (backend := IQMBackend _).
  destruct (connect url w) as [[[]|e] w0]; cbn [fst snd].
  2: { split; [apply (vouched_sdk [Getenv "HELMI_CORTEX_URL"; Connect url _])
              |done]. }
  destruct (QbFlipSimple.main_qubits _ _ _ _) as [[o1 w1] t1] eqn:Hloop.
  apply main_qubits_spec in Hloop as (Hv1 & Hall1 & _ & done_qbs & _ & _ & Ho1).
  set (head := [Sdk (Getenv "HELMI_CORTEX_URL");
                Sdk (Connect url (Return tt));
                Sdk (Output (Text (nl +:+ "Flip one qubit at a time"
                                     +:+ nl)))]).
  destruct o1 as [[]|f].
  - destruct (QbFlipSimple.main_all _ _ _ _) as [[o2 w2] t2] eqn:Hall.
    apply main_all_spec in Hall as (c & m & reply & _ & _ & Hq2 & Ho2).
    cbn [fst snd]. split.
    + apply (vouched_app head), vouched_app;
        [apply (vouched_sdk [_; _; _])|done|].
      change (vouched ((Sdk <$> [Output (Text (nl +:+ "Flip all qubits at once"
                                                  +:+ nl))]) ++ t2)).
      apply vouched_app; [apply vouched_sdk|].
      intros n counts p Hin. by apply Hq2 in Hin.
    + intros ->. by destruct Ho2 as [_ ?].
  - cbn [fst snd]. split.
    + apply (vouched_app head); [apply (vouched_sdk [_; _; _])|done].
    + intros [= ->].
      destruct Ho1 as (qb & reply & _ & _ & _ & Hjob & Hassert).
      destruct (Hassert eq_refl) as (job & res & first & rest & -> & Hrest).
      split.
      * intros counts p Hin. do 3 apply elem_of_cons in Hin as [[=]|Hin].
        by apply Hall1 in Hin.
      * exists backend, qb, job, res, first, rest. split; [|done].
        by do 3 apply list_elem_of_further.
Qed.

End SimpleMain.

(** ** [main] of [qb_flip_simple.py] on the bench backends *)

Import Run.

Lemma X11_simple_main_witness :
  QbFlipSimple.main Bench.helmi ∅ 0%nat
  = (Failed (Exception
               (ValueError "Environment variable HELMI_CORTEX_URL is not set")),
     0%nat, [Sdk (Getenv "HELMI_CORTEX_URL")]).
Proof.
  apply (proj1 (X11_simple_main_endpoint Bench.helmi ∅ 0%nat)).
  left. apply lookup_empty.
Defined.

Lemma X12_simple_main_witness :
  let run := QbFlipSimple.main Bench.helmi
               {[ "HELMI_CORTEX_URL" := "https://helmi" ]} 0%nat in
  run.1.1 = Done tt /\
  length (executions (events run.2)) = 6%nat /\
  exists lines counts p,
    report_lines run.2 = lines ++ [AllReport counts p] /\
    Forall2 (fun s qb => exists counts p, s = QubitReport (qb + 1) counts p)
            lines (range 5).
Proof.
  intros run.
  assert (run.1.1 = Done tt) as Hdone by (vm_compute; reflexivity).
  destruct (X12_simple_main_jobs Bench.helmi
              {[ "HELMI_CORTEX_URL" := "https://helmi" ]} "https://helmi"
              0%nat)
    as (circuit & mapping & _ & _ & _ & Hall).
  - apply lookup_singleton_eq.
  - discriminate.
  - destruct (Hall Hdone) as (Hsix & Hlines).
    split; [done|]. split; [|done].
    fold run in Hsix. rewrite Hsix. reflexivity.
Defined.

Lemma X13_simple_main_witness :
  let run := QbFlipSimple.main Bench.always_QB1
               {[ "HELMI_CORTEX_URL" := "https://helmi" ]} 0%nat in
  run.1.1 = Failed AssertionError /\
  vouched run.2 /\
  (forall counts p, AllReport counts p ∉ run.2) /\
  exists backend qb job res first rest,
    Sdk (Execute simple_one_qubit backend 1000
           (Some {[ 0%nat := qb ]}) (Return job)) ∈ run.2 /\
    job_result job = Return res /\
    qubit_mapping res = first :: rest /\
    first.2 <> "QB" +:+ str (qb + 1).
Proof.
  intros run.
  assert (run.1.1 = Failed AssertionError) as Hfail
    by (vm_compute; reflexivity).
  destruct (X13_simple_main_assert Bench.always_QB1
              {[ "HELMI_CORTEX_URL" := "https://helmi" ]} 0%nat)
    as (Hvouched & Hassert).
  destruct (Hassert Hfail) as (Hnone & Hjob).
  by repeat split.
Defined.

(** ** The two scripts' builders side by side *)

(** X14: [flip_circuit] of [qb_flip.py] and of [qb_flip_simple.py] fail on
    the same lists with the same error, and when they return they give the
    same mapping (position [i] to [qubits[i]]), the same quantum register
    and the same X gates; the circuits differ only in their classical
    registers and in the bits measured into. *)
Theorem X14_flip_circuit_scripts_agree (qubits : list Z) :
  match QbFlip.flip_circuit qubits, QbFlipSimple.flip_circuit qubits with
  | Return (qc, mapping), Return (qc', mapping') =>
      mapping = mapping' /\
      (forall i : nat, mapping !! i = qubits !! i) /\
      Qiskit.qregs qc = Qiskit.qregs qc' /\
      Qiskit.x_targets qc = Qiskit.x_targets qc' /\
      length (Qiskit.data qc) = length (Qiskit.data qc')
  | Raise e, Raise e' => e = e' /\ e = CircuitError
  | _, _ => False
  end.
Proof.
  rewrite flip_circuit_spec, flip_circuit_simple_spec.
  destruct (mapM _ qubits) as [targets|]; [|done].
  split; [done|]. split; [apply lookup_map_seq_0|]. split; [done|].
  rewrite (x_targets_flip_data _ targets (length qubits) 0%nat)
    by (cbn; by rewrite Nat.add_0_r).
  rewrite (x_targets_flip_data _ targets (length qubits) (length qubits))
    by (cbn; by rewrite !Nat.add_0_r).
  split; [done|]. cbn. by rewrite !length_app, !length_cons, !length_map.
Qed.
